(** * Stormshield SNS GUI toolbox: the command pipeline of [src/main_gui.py]

    A shallow embedding of the worker threads and of the small pieces of
    state that the window keeps around them:

    - [CommandExecutorThread.run]   (the command dispatcher),
    - [StormshieldGUI.execute_commands] (the filter in front of it),
    - [MonitoringThread.run]        (the monitor poller),
    - [save_settings], [save_connection_info], [get_saved_profiles],
      [delete_connection_profile]  (the QSettings profile store),
    - [add_to_command_history], [clear_command_history],
    - [format_long_command]         (the wrapping of long commands),
    - [ConnectionThread.run], [connect_to_appliance],
      [on_connection_result], [disconnect_from_appliance] (the session),
    - [backup_appliance], [load_connection_profile],
    - [execute_terminal_command], [on_terminal_command_executed],
    - the requirements of [setup.py].

    Signals emitted by a thread are recorded as a trace of events, in the
    order of emission.  The appliance session (the vendor SDK client) is a
    state machine given by the caller: one step per [send_command], which
    either returns a result or raises. *)

From Stdlib Require Import ZArith List String Ascii Lia Bool.
From Stdlib Require Import Floats.SpecFloat.
From Stdlib Require Import Reals Lra.
From stdpp Require Import gmap strings list.

Local Open Scope Z_scope.

(** ** Python strings

    A [str] is modelled by [string]; a character stands for the code point
    of the same number, so the model covers the strings whose code points
    are below 256. *)
Module PyStr.

(** [str.isspace] on one character: the code points below 256 that Python
    treats as white space (TAB..CR, FS..US, SPACE, NEL, NBSP). *)
Definition is_space (c : ascii) : bool :=
  let n := nat_of_ascii c in
  ((9 <=? n) && (n <=? 13) || (28 <=? n) && (n <=? 32)
   || (n =? 133) || (n =? 160))%nat.

(** [s.lstrip()] *)
Fixpoint lstrip (s : string) : string :=
  match s with
  | EmptyString => EmptyString
  | String c s' => if is_space c then lstrip s' else s
  end.

(** [s.rstrip()]: a character is dropped when it is white space and
    everything after it has been dropped. *)
Fixpoint rstrip (s : string) : string :=
  match s with
  | EmptyString => EmptyString
  | String c s' =>
      match rstrip s' with
      | EmptyString => if is_space c then EmptyString else String c EmptyString
      | t => String c t
      end
  end.

(** [s.strip()] *)
Definition strip (s : string) : string := rstrip (lstrip s).

(** The truth value of a [str]: the empty string is false. *)
Definition truthy (s : string) : bool :=
  match s with EmptyString => false | _ => true end.

(** [s.startswith(p)] *)
Definition startswith (p s : string) : bool := String.prefix p s.

(** [sub in s] *)
Fixpoint contains (sub s : string) : bool :=
  String.prefix sub s ||
  match s with
  | EmptyString => false
  | String _ s' => contains sub s'
  end.

(** [s.split(sep)] for a one-character separator; [cur] holds the piece
    being read, reversed.  The result is never empty. *)
Fixpoint split_acc (sep : ascii) (cur : string) (s : string) : list string :=
  match s with
  | EmptyString => [String.rev cur]
  | String c s' =>
      if Ascii.eqb c sep then String.rev cur :: split_acc sep EmptyString s'
      else split_acc sep (String c cur) s'
  end.

Definition split (sep : ascii) (s : string) : list string :=
  split_acc sep EmptyString s.

(** The line feed, ["\n"]. *)
Definition LF : ascii := ascii_of_nat 10.
Definition nl : string := String LF EmptyString.

End PyStr.

(** ** Python floats

    [float] is IEEE 754 binary64; its operations are the ones of the
    specification of the standard library, at precision 53 and maximal
    exponent 1024. *)
Module Float64.

Definition prec : Z := 53.
Definition emax : Z := 1024.

(** [float(n)] for an [int]: the nearest double (exact below [2^53]). *)
Definition float_of_int (n : Z) : spec_float :=
  binary_normalize prec emax n 0 false.

(** [a / b] on two [int]s, the true division: [None] is
    [ZeroDivisionError].  Both operands are converted and divided as
    doubles, which is what CPython does when they are below [2^53]. *)
Definition truediv (a b : Z) : option spec_float :=
  if b =? 0 then None
  else Some (SFdiv prec emax (float_of_int a) (float_of_int b)).

(** [x * n] for a float [x] and an [int] [n]. *)
Definition mul_int (x : spec_float) (n : Z) : spec_float :=
  SFmul prec emax x (float_of_int n).

(** [int(x)]: truncation toward zero; [None] is the [OverflowError] or
    [ValueError] that Python raises on an infinity or a NaN. *)
Definition int_of_float (x : spec_float) : option Z :=
  match x with
  | S754_zero _ => Some 0
  | S754_finite s m e =>
      Some (cond_Zopp s
              (match e with
               | Zneg _ => Z.shiftr (Zpos m) (- e)
               | _ => Z.shiftl (Zpos m) e
               end))
  | S754_infinity _ | S754_nan => None
  end.

End Float64.

(** ** What a rounding is

    The value of a double, the place of a real between two doubles, and
    the statement that a double is the rounding of a real. *)
Module Rounding.

(** [2^e] as a real, and the value [m * 2^e] of a mantissa and an
    exponent. *)
Definition bpow (e : Z) : R := powerRZ 2 e.
Definition F2R (m e : Z) : R := (IZR m * bpow e)%R.

(** [x] lies in the slice that starts at [m * 2^e] and is [2^e] wide: on its
    lower end when the location is exact, else strictly inside, below, at or
    above the middle. *)
Definition inbetween (m e : Z) (l : location) (x : R) : Prop :=
  match l with
  | loc_Exact => x = F2R m e
  | loc_Inexact c =>
      (F2R m e < x < F2R (m + 1) e)%R
      /\ match c with
         | Lt => (2 * x < F2R (2 * m + 1) e)%R
         | Eq => (2 * x = F2R (2 * m + 1) e)%R
         | Gt => (F2R (2 * m + 1) e < 2 * x)%R
         end
  end.

(** [m * 2^e], with a mantissa of 53 bits, is a double nearest to [x]: [x]
    is no more than half a step above it and no more than half a step below
    it, the step below the first double of a binade ([m = 2^52]) being half
    the step above it. *)
Definition rounds_to (x : R) (m e : Z) : Prop :=
  2 ^ 52 <= m < 2 ^ 53
  /\ (2 * x <= F2R (2 * m + 1) e)%R
  /\ (2 ^ 52 < m -> (F2R (2 * m - 1) e <= 2 * x)%R)
  /\ (m = 2 ^ 52 -> (F2R (4 * m - 1) e <= 4 * x)%R).

End Rounding.

(** ** The command dispatcher: [CommandExecutorThread] *)
Module Dispatcher.

(** What [client.send_command] hands back: [repr] is [str(result)], the
    text the dispatcher looks at; [output] is [result.output]. *)
Record result := { output : string; repr : string }.

(** One call of [client.send_command]: it returns or it raises an
    exception whose text, [str(e)], is [msg]. *)
Inductive outcome :=
| Returned (r : result)
| Raised (msg : string).

(** What the thread does, in order: the calls to the session, the two
    signals [command_executed(command, output, success)] and
    [progress(int)], the pause [msleep], and an exception leaving [run]. *)
Inductive event :=
| Send (command : string)
| CommandExecuted (command : string) (output : string) (success : bool)
| Progress (p : Z)
| Msleep (ms : Z)
| Uncaught.

(** [int(((i + 1) / total_commands) * 100)] with [completed = i + 1]. *)
Definition progress_value (completed total : Z) : option Z :=
  match Float64.truediv completed total with
  | Some q => Float64.int_of_float (Float64.mul_int q 100)
  | None => None
  end.

(** The reading of the progress value in the specification: [p] is an
    integer nearest to [num / den]. *)
Definition nearest_integer (p num den : Z) : Prop :=
  2 * Z.abs (p * den - num) <= den.

(** The marker looked for in [str(result)]. *)
Definition success_marker : string := "100 code=".

(** The text emitted with a result that came back: [str(result)] followed
    by the verdict on the marker. *)
Definition annotate (r : result) : string :=
  if PyStr.contains success_marker (repr r)
  then repr r +:+ " | Command executed successfully."
  else repr r +:+ " | Command execution failed.".

(** [if command.strip():] *)
Definition nonblank (command : string) : bool :=
  PyStr.truthy (PyStr.strip command).

Section Run.

(** The session: its state and one step of [send_command]. *)
Context {session : Type}.
Variable send_command : session -> string -> session * outcome.

(** The body of the [try] statement for one command.  The local [output]
    the source computes from [result.output] is never read again and is
    left out. *)
Definition attempt (s : session) (command : string) : list event * session :=
  match send_command s command with
  | (s', Returned r) =>
      ([Send command; CommandExecuted command (annotate r) true], s')
  | (s', Raised msg) =>
      ([Send command; CommandExecuted command ("Error: " +:+ msg) false], s')
  end.

(** The [for] loop from index [i] on, over what is left of
    [self.commands]. *)
Fixpoint run_from (total : nat) (i : nat) (commands : list string)
    (s : session) : list event :=
  match commands with
  | [] => []
  | command :: rest =>
      if nonblank command then
        let '(evs, s') := attempt s command in
        match progress_value (Z.of_nat (i + 1)) (Z.of_nat total) with
        | Some p => evs ++ [Progress p; Msleep 100] ++ run_from total (S i) rest s'
        | None => evs ++ [Uncaught]
        end
      else run_from total (S i) rest s
  end.

(** [CommandExecutorThread.run] *)
Definition run (commands : list string) (s : session) : list event :=
  run_from (length commands) 0 commands s.

(** The session once the loop has gone through [commands]: blank entries
    are skipped, every other one is sent. *)
Fixpoint advance (commands : list string) (s : session) : session :=
  match commands with
  | [] => s
  | command :: rest =>
      if nonblank command
      then advance rest (send_command s command).1
      else advance rest s
  end.

End Run.

(** Projections of a trace. *)
Definition sent (tr : list event) : list string :=
  omap (fun e => match e with Send c => Some c | _ => None end) tr.

Definition executed (tr : list event) : list (string * string * bool) :=
  omap (fun e => match e with
                 | CommandExecuted c o b => Some (c, o, b)
                 | _ => None
                 end) tr.

Definition progress_values (tr : list event) : list Z :=
  omap (fun e => match e with Progress p => Some p | _ => None end) tr.

(** The calls to the session and the per-command signals, nothing else. *)
Definition is_dialogue (e : event) : bool :=
  match e with
  | Send _ | CommandExecuted _ _ _ => true
  | _ => false
  end.

Definition dialogue (tr : list event) : list event :=
  List.filter is_dialogue tr.

(** An appliance that knows one command and answers every other one with
    an error status; it never raises and has no state. *)
Definition known_command : string := "config network interface show".

Definition appliance (s : unit) (command : string) : unit * outcome :=
  if String.eqb command known_command
  then (s, Returned {| output := "eth0"; repr := "100 code=00a01000 msg=Ok" |})
  else (s, Returned {| output := ""; repr := "200 code=00a00300 msg=Command not found" |}).

End Dispatcher.

(** ** The batch tab: [StormshieldGUI.execute_commands] *)
Module Batch.

(** The list comprehension over the lines of the command editor: a line is
    kept, stripped, when it is not blank and does not start with [#]. *)
Definition keep (cmd : string) : bool :=
  PyStr.truthy (PyStr.strip cmd)
  && negb (PyStr.startswith "#" (PyStr.strip cmd)).

Definition filter_commands (text : string) : list string :=
  if PyStr.truthy (PyStr.strip text)
  then map PyStr.strip (List.filter keep (PyStr.split PyStr.LF text))
  else [].

(** How a click on the execute button ends: one of the three early
    returns, or a dispatcher thread started on [commands]. *)
Inductive outcome :=
| NotConnected
| NoCommands
| Declined
| Dispatched (commands : list string).

(** [execute_commands]: [is_connected] is the field of the window, [text]
    the content of the editor, [reply_yes] the answer to the confirmation
    box. *)
Definition execute_commands (is_connected : bool) (text : string)
    (reply_yes : bool) : outcome :=
  if negb is_connected then NotConnected
  else
    match filter_commands text with
    | [] => NoCommands
    | commands => if reply_yes then Dispatched commands else Declined
    end.

(** The editor holding the four lines [config network interface show],
    [#comment], an empty line and [bogus_cmd]. *)
Definition four_lines : string :=
  "config network interface show" +:+ PyStr.nl +:+ "#comment" +:+ PyStr.nl
  +:+ "" +:+ PyStr.nl +:+ "bogus_cmd".

(** The trace of the dispatcher thread that a click starts, if any. *)
Definition dispatch {session : Type}
    (send_command : session -> string -> session * Dispatcher.outcome)
    (o : outcome) (s : session) : list Dispatcher.event :=
  match o with
  | Dispatched commands => Dispatcher.run send_command commands s
  | _ => []
  end.

End Batch.

(** ** The monitor poller: [MonitoringThread] *)
Module Monitor.

(** The signals [monitoring_started(str)] and [monitoring_data(str)], the
    calls to the session and the pause between two rounds. *)
Inductive event :=
| Started (message : string)
| Send (command : string)
| Data (text : string)
| Msleep (ms : Z).

Section Poll.

Context {session : Type}.
Variable send_command : session -> string -> session * Dispatcher.outcome.

(** [str.upper], used only in the start message. *)
Variable upper : string -> string.

(** One call to the session inside the [try]: the text [str(result)], or
    the text of the exception. *)
Definition fetch (s : session) (command : string) : session * (string + string) :=
  match send_command s command with
  | (s', Dispatcher.Returned r) => (s', inl (Dispatcher.repr r))
  | (s', Dispatcher.Raised msg) => (s', inr msg)
  end.

(** A kind that sends one command and publishes its text. *)
Definition poll_one (command : string) (s : session) : list event * session :=
  match fetch s command with
  | (s', inl text) => ([Send command; Data text], s')
  | (s', inr msg) => ([Send command; Data ("Error: " +:+ msg)], s')
  end.

(** The [try] statement of the loop body. *)
Definition poll (monitor_type : string) (s : session) : list event * session :=
  if String.eqb monitor_type "system" then poll_one "monitor system" s
  else if String.eqb monitor_type "ipsec" then
    match fetch s "monitor getikesa" with
    | (s1, inr msg) => ([Send "monitor getikesa"; Data ("Error: " +:+ msg)], s1)
    | (s1, inl ikesa) =>
        match fetch s1 "monitor getsa" with
        | (s2, inr msg) =>
            ([Send "monitor getikesa"; Send "monitor getsa";
              Data ("Error: " +:+ msg)], s2)
        | (s2, inl sa) =>
            ([Send "monitor getikesa"; Send "monitor getsa";
              Data (ikesa +:+ PyStr.nl +:+ sa)], s2)
        end
    end
  else if String.eqb monitor_type "interface" then poll_one "monitor interface" s
  else poll_one ("monitor " +:+ monitor_type) s.

(** One round of the [while] loop: the guarded [try], then the pause.
    [client] is [None] when [self.client] is false. *)
Definition round (monitor_type : string) (client : option session)
    : list event * option session :=
  match client with
  | Some s => let '(evs, s') := poll monitor_type s in (evs ++ [Msleep 2000], Some s')
  | None => ([Msleep 2000], None)
  end.

(** The [while self.is_running] loop.  [run] sets the flag once, before
    the loop; from then on it is written by the thread that asks for the
    stop, so what the loop reads at each test is an input: [is_running]
    lists the values read at the successive tests.  The result has one
    trace per round. *)
Fixpoint rounds (monitor_type : string) (is_running : list bool)
    (client : option session) : list (list event) :=
  match is_running with
  | true :: later =>
      let '(evs, client') := round monitor_type client in
      evs :: rounds monitor_type later client'
  | _ => []
  end.

(** [MonitoringThread.run] *)
Definition run (monitor_type : string) (is_running : list bool)
    (client : option session) : list event :=
  Started ("Monitoring " +:+ upper monitor_type +:+ "...")
  :: concat (rounds monitor_type is_running client).

End Poll.

Definition sent (tr : list event) : list string :=
  omap (fun e => match e with Send c => Some c | _ => None end) tr.

Definition published (tr : list event) : list string :=
  omap (fun e => match e with Data t => Some t | _ => None end) tr.

(** A session whose IKE query fails: [monitor getikesa] raises, every other
    command is answered. *)
Definition no_ike (s : unit) (command : string) : unit * Dispatcher.outcome :=
  if String.eqb command "monitor getikesa"
  then (s, Dispatcher.Raised "timed out")
  else (s, Dispatcher.Returned
             {| Dispatcher.output := ""; Dispatcher.repr := "100 code=00a01000 msg=Ok" |}).

End Monitor.

(** ** The profile store: the [QSettings] object of the window *)
Module Settings.

(** What a key holds.  A list of names written with one element may come
    back as a plain string, which is why the readers test for both. *)
Inductive qvalue :=
| QStr (s : string)
| QInt (n : Z)
| QList (names : list string)
| QBytes (b : string).

(** The store, from keys such as [profiles/lab/host] to values. *)
Abbreviation store := (gmap string qvalue).

(** [settings.setValue(key, v)] *)
Definition setValue (key : string) (v : qvalue) (st : store) : store :=
  <[key := v]> st.

(** [key] is the setting [section] or one of its sub-settings. *)
Definition under (section key : string) : bool :=
  String.eqb key section || String.prefix (section +:+ "/") key.

(** [settings.remove(section)]: the setting and all its sub-settings go. *)
Definition remove (section : string) (st : store) : store :=
  filter (fun kv => under section kv.1 = false) st.

(** The fields of the connection tab. *)
Record connection_tab := {
  host_edit : string;
  port_spin : Z;
  user_edit : string;
  password_edit : string
}.

(** The name list as both readers see it:
    [settings.value("profiles/list", [])] followed by the [isinstance]
    tests. *)
Definition get_saved_profiles (st : store) : list string :=
  match st !! "profiles/list" with
  | None => []
  | Some (QStr s) => if PyStr.truthy s then [s] else []
  | Some (QList names) => names
  | Some _ => []
  end.

(** [save_settings]: [geometry] is [self.saveGeometry()]. *)
Definition save_settings (geometry : string) (st : store) : store :=
  setValue "window/geometry" (QBytes geometry) st.

(** [if not profile_name: profile_name = "default"] *)
Definition name_or_default (profile_name : option string) : string :=
  match profile_name with
  | Some n => if PyStr.truthy n then n else "default"
  | None => "default"
  end.

(** [save_connection_info(profile_name)]: [now] is the text of
    [time.strftime]; a missing or empty name means [default].  The result
    is the returned flag and the store. *)
Definition save_connection_info (tab : connection_tab) (now : string)
    (profile_name : option string) (st : store) : bool * store :=
  let host := PyStr.strip (host_edit tab) in
  let port := port_spin tab in
  let user := PyStr.strip (user_edit tab) in
  if negb (PyStr.truthy host && PyStr.truthy user) then (false, st)
  else
    let profile_name := name_or_default profile_name in
    let profile_section := "profiles/" +:+ profile_name in
    let st := setValue (profile_section +:+ "/host") (QStr host) st in
    let st := setValue (profile_section +:+ "/port") (QInt port) st in
    let st := setValue (profile_section +:+ "/user") (QStr user) st in
    let st := setValue (profile_section +:+ "/saved_date") (QStr now) st in
    let saved_profiles := get_saved_profiles st in
    if bool_decide (profile_name ∈ saved_profiles) then (true, st)
    else (true, setValue "profiles/list" (QList (saved_profiles ++ [profile_name])) st).

(** [list.remove(x)]: the first occurrence goes. *)
Fixpoint list_remove (x : string) (l : list string) : list string :=
  match l with
  | [] => []
  | y :: l' => if String.eqb y x then l' else y :: list_remove x l'
  end.

(** [delete_connection_profile(profile_name)] *)
Definition delete_connection_profile (profile_name : string) (st : store)
    : bool * store :=
  let saved_profiles := get_saved_profiles st in
  let st :=
    if bool_decide (profile_name ∈ saved_profiles)
    then setValue "profiles/list" (QList (list_remove profile_name saved_profiles)) st
    else st in
  let profile_section := "profiles/" +:+ profile_name in
  (true, remove profile_section st).

(** The writers of the store, as the window calls them. *)
Inductive op :=
| SaveSettings (geometry : string)
| SaveConnectionInfo (tab : connection_tab) (now : string) (profile_name : option string)
| DeleteConnectionProfile (profile_name : string).

Definition step (st : store) (o : op) : store :=
  match o with
  | SaveSettings geometry => save_settings geometry st
  | SaveConnectionInfo tab now name => (save_connection_info tab now name st).2
  | DeleteConnectionProfile name => (delete_connection_profile name st).2
  end.

(** The store after a sequence of calls. *)
Definition exec (ops : list op) (st : store) : store := foldl step st ops.

(** The same call with another text in the password field. *)
Definition retype_password (pw : string) (o : op) : op :=
  match o with
  | SaveConnectionInfo tab now name =>
      SaveConnectionInfo
        {| host_edit := host_edit tab; port_spin := port_spin tab;
           user_edit := user_edit tab; password_edit := pw |} now name
  | _ => o
  end.

(** The keys the window writes: the geometry, the name list, and the four
    fields of a profile section. *)
Definition profile_fields : list string :=
  ["/host"; "/port"; "/user"; "/saved_date"].

Definition written_key (key : string) : Prop :=
  key = "window/geometry" ∨ key = "profiles/list"
  ∨ ∃ name field, field ∈ profile_fields ∧ key = ("profiles/" +:+ name) +:+ field.

(** A filled connection tab and the store after saving it as [lab]. *)
Definition lab_tab : connection_tab :=
  {| host_edit := "10.0.0.1"; port_spin := 443; user_edit := "admin";
     password_edit := "s3cret" |}.

Definition lab_store : store :=
  exec [SaveConnectionInfo lab_tab "2024-05-02 09:30:00" (Some "lab")] ∅.

End Settings.

(** ** The terminal history: [cmd_history_list] and its dropdown *)
Module History.

Record history := {
  cmd_history_list : list string;
  command_history : list string        (* the items of the combo box *)
}.

(** The state set up by [__init__] and [create_terminal_tab]. *)
Definition initial : history :=
  {| cmd_history_list := []; command_history := ["No command history"] |}.

(** [add_to_command_history(command)] *)
Definition add_to_command_history (command : string) (h : history) : history :=
  if bool_decide (command ∈ cmd_history_list h) then h
  else
    let l := command :: cmd_history_list h in
    let l := if (20 <? length l)%nat then take 20 l else l in
    {| cmd_history_list := l;
       command_history := match l with [] => ["No command history"] | _ => l end |}.

(** [clear_command_history()] *)
Definition clear_command_history (h : history) : history :=
  {| cmd_history_list := []; command_history := ["No command history"] |}.

Inductive op :=
| Add (command : string)
| Clear.

Definition step (h : history) (o : op) : history :=
  match o with
  | Add command => add_to_command_history command h
  | Clear => clear_command_history h
  end.

End History.

(** ** More Python strings: [len], [split()], [join], [lower] *)
Module PyText.

(** [len(s)] *)
Definition len (s : string) : nat := String.length s.

(** [s.split()] with no argument: the maximal runs of characters that are
    not white space; [cur] holds the run being read, reversed. *)
Fixpoint words_acc (cur : string) (s : string) : list string :=
  match s with
  | EmptyString =>
      match cur with
      | EmptyString => []
      | _ => [String.rev cur]
      end
  | String c s' =>
      if PyStr.is_space c then
        match cur with
        | EmptyString => words_acc EmptyString s'
        | _ => String.rev cur :: words_acc EmptyString s'
        end
      else words_acc (String c cur) s'
  end.

Definition words (s : string) : list string := words_acc EmptyString s.

(** [sep.join(l)] *)
Fixpoint join (sep : string) (l : list string) : string :=
  match l with
  | [] => EmptyString
  | [x] => x
  | x :: l' => x +:+ sep +:+ join sep l'
  end.

(** [c.lower()] for one character below 256: the capital letters of ASCII
    and of Latin-1 move 32 places up. *)
Definition lower_char (c : ascii) : ascii :=
  let n := nat_of_ascii c in
  if ((65 <=? n) && (n <=? 90) || (192 <=? n) && (n <=? 214)
      || (216 <=? n) && (n <=? 222))%nat
  then ascii_of_nat (n + 32)
  else c.

(** [s.lower()] *)
Fixpoint lower (s : string) : string :=
  match s with
  | EmptyString => EmptyString
  | String c s' => String (lower_char c) (lower s')
  end.

(** Every character of [s] is white space; none is. *)
Fixpoint blank (s : string) : bool :=
  match s with
  | EmptyString => true
  | String c s' => PyStr.is_space c && blank s'
  end.

Fixpoint spaceless (s : string) : bool :=
  match s with
  | EmptyString => true
  | String c s' => negb (PyStr.is_space c) && spaceless s'
  end.

(** A word: not empty and without white space. *)
Definition is_word (w : string) : Prop := w <> EmptyString /\ spaceless w = true.

(** The backslash, written by its code. *)
Definition backslash : string := String (ascii_of_nat 92) EmptyString.

End PyText.

(** ** The results view: [StormshieldGUI.format_long_command] *)
Module Wrap.

(** The [for] loop over the words: [formatted_lines] are the lines that are
    closed, [current_line] the words of the line being filled and
    [current_length] the count the source keeps for it. *)
Fixpoint fill (words : list string) (formatted_lines : list string)
    (current_line : list string) (current_length : nat) : list string :=
  match words with
  | [] =>
      match current_line with
      | [] => formatted_lines
      | _ => formatted_lines ++ [PyText.join " " current_line]
      end
  | word :: rest =>
      if (80 <? current_length + PyText.len word + 1)%nat
         && match current_line with [] => false | _ => true end
      then fill rest (formatted_lines ++ [PyText.join " " current_line])
             [word] (PyText.len word)
      else
        let current_line := current_line ++ [word] in
        fill rest formatted_lines current_line
          (current_length
           + (PyText.len word + match current_line with [] => 0 | _ => 1 end))%nat
  end.

(** The lines a long command is cut into. *)
Definition formatted_lines (command : string) : list string :=
  fill (PyText.words command) [] [] 0.

(** What separates two lines of the result: a space, a backslash, a line
    feed and four spaces. *)
Definition continuation : string :=
  " " +:+ PyText.backslash +:+ PyStr.nl +:+ "    ".

(** [format_long_command(command)]; [None] is the [IndexError] of
    [formatted_lines[0]] on an empty list. *)
Definition format_long_command (command : string) : option string :=
  if (PyText.len command <=? 80)%nat then Some command
  else
    match formatted_lines command with
    | [] => None
    | first :: others =>
        Some (fold_left (fun result line => result +:+ continuation +:+ line)
                others first)
    end.

(** A command of 105 characters. *)
Definition long_command : string :=
  "config object host new name=srv-backup-01 ip=192.168.100.25 resolve=static comment=nightly update=1 mac=0".

End Wrap.

(** ** The connection thread: [ConnectionThread.run] *)
Module Connection.

(** What a call of the constructor [SSLClient(...)] does: it hands back a
    client, or raises a [TypeError], or raises another exception; [msg] is
    the text [str(e)]. *)
Inductive built (client : Type) :=
| Built (c : client)
| RaisedTypeError (msg : string)
| RaisedOther (msg : string).
Arguments Built {client} c.
Arguments RaisedTypeError {client} msg.
Arguments RaisedOther {client} msg.

(** What the thread does, in order: the signals [progress(int)] and
    [connected(bool, str)], and the calls of the constructor, with or
    without the keyword [sslverifypeer]. *)
Inductive event :=
| Progress (p : Z)
| Construct (sslverifypeer : bool)
| Connected (success : bool) (message : string).

(** [keyword in error_msg.lower()] *)
Definition mentions (keyword error_msg : string) : bool :=
  PyStr.contains keyword (PyText.lower error_msg).

(** The [if] chain of the handler: the text shown for an exception. *)
Definition describe (error_msg : string) : string :=
  if mentions "certificate" error_msg || mentions "ssl" error_msg then
    ("SSL/Certificate Error: " +:+ error_msg +:+ PyStr.nl)
    +:+ "This is often caused by self-signed certificates. "
    +:+ "Connection security is disabled for Stormshield appliances."
  else if mentions "connection" error_msg then
    ("Connection Error: " +:+ error_msg +:+ PyStr.nl)
    +:+ "Please check the host/IP address and port number."
  else if mentions "authentication" error_msg || mentions "login" error_msg then
    ("Authentication Error: " +:+ error_msg +:+ PyStr.nl)
    +:+ "Please check your username and password."
  else error_msg.

Section Run.

Context {client : Type}.

(** The constructor on the arguments of this thread; the flag tells
    whether [sslverifypeer] is passed. *)
Variable SSLClient : bool -> built client.
Variable host : string.

(** The two ways out of [run], after the constructor calls [calls]. *)
Definition succeed (calls : list event) (c : client) : list event * option client :=
  (Progress 25 :: calls
   ++ [Progress 100; Connected true ("Successfully connected to " +:+ host)],
   Some c).

Definition fail (calls : list event) (error_msg : string)
    : list event * option client :=
  (Progress 25 :: calls
   ++ [Progress 100; Connected false ("Connection failed: " +:+ describe error_msg)],
   None).

(** [ConnectionThread.run]: the trace, and the field [self.client] when the
    thread ends.  The SSL context that the source builds first is never
    used and is left out. *)
Definition run : list event * option client :=
  match SSLClient true with
  | Built c => succeed [Construct true] c
  | RaisedTypeError _ =>
      match SSLClient false with
      | Built c => succeed [Construct true; Construct false] c
      | RaisedTypeError error_msg | RaisedOther error_msg =>
          fail [Construct true; Construct false] error_msg
      end
  | RaisedOther error_msg => fail [Construct true] error_msg
  end.

End Run.

(** The signals [connected] of a trace. *)
Definition results (tr : list event) : list (bool * string) :=
  omap (fun e => match e with Connected b m => Some (b, m) | _ => None end) tr.

End Connection.

(** ** The session of the window: [connect_to_appliance],
    [on_connection_result], [disconnect_from_appliance] *)
Module Lifecycle.

(** The fields these three functions write: the session, the flag, and
    which buttons are enabled.  [connection_thread] is the host of the
    connection thread that has been started and whose signal is still to
    come, if there is one.  The texts, the styles, the progress bar and the
    current tab are left out. *)
Record window (C : Type) := {
  client : option C;
  is_connected : bool;
  connection_thread : option string;
  connect_btn : bool;
  disconnect_btn : bool;
  backup_btn : bool;
  system_info_btn : bool;
  execute_btn : bool;
  send_cmd_btn : bool
}.
Arguments client {C} w.
Arguments is_connected {C} w.
Arguments connection_thread {C} w.
Arguments connect_btn {C} w.
Arguments disconnect_btn {C} w.
Arguments backup_btn {C} w.
Arguments system_info_btn {C} w.
Arguments execute_btn {C} w.
Arguments send_cmd_btn {C} w.

Section Window.

Context {C : Type}.

(** The window as [__init__] and the tab builders leave it. *)
Definition initial : window C :=
  {| client := None; is_connected := false; connection_thread := None;
     connect_btn := true; disconnect_btn := false; backup_btn := false;
     system_info_btn := false; execute_btn := false; send_cmd_btn := false |}.

(** [connect_to_appliance] *)
Definition connect_to_appliance (tab : Settings.connection_tab) (w : window C)
    : window C :=
  let host := PyStr.strip (Settings.host_edit tab) in
  let user := PyStr.strip (Settings.user_edit tab) in
  let password := Settings.password_edit tab in
  if negb (PyStr.truthy host && PyStr.truthy user && PyStr.truthy password) then w
  else
    {| client := client w; is_connected := is_connected w;
       connection_thread := Some host;
       connect_btn := false; disconnect_btn := disconnect_btn w;
       backup_btn := backup_btn w; system_info_btn := system_info_btn w;
       execute_btn := execute_btn w; send_cmd_btn := send_cmd_btn w |}.

(** [on_connection_result(success, message)]; [thread_client] is
    [self.connection_thread.client]. *)
Definition on_connection_result (success : bool) (thread_client : option C)
    (w : window C) : window C :=
  if success then
    {| client := thread_client; is_connected := true;
       connection_thread := connection_thread w;
       connect_btn := false; disconnect_btn := true;
       backup_btn := true; system_info_btn := true;
       execute_btn := true; send_cmd_btn := true |}
  else
    {| client := client w; is_connected := false;
       connection_thread := connection_thread w;
       connect_btn := true; disconnect_btn := false;
       backup_btn := backup_btn w; system_info_btn := system_info_btn w;
       execute_btn := false; send_cmd_btn := false |}.

(** [disconnect_from_appliance]; what [client.close()] does is the
    session's business, and an exception it raises is swallowed. *)
Definition disconnect_from_appliance (w : window C) : window C :=
  {| client := None; is_connected := false;
     connection_thread := connection_thread w;
     connect_btn := true; disconnect_btn := false;
     backup_btn := false; system_info_btn := false;
     execute_btn := false; send_cmd_btn := false |}.

(** What happens to the window: a click on the connect button, the end of
    the connection thread, whose constructor behaves as [SSLClient], and a
    click on the disconnect button. *)
Inductive event :=
| ClickConnect (tab : Settings.connection_tab)
| ThreadEnds (SSLClient : bool -> Connection.built C)
| ClickDisconnect.

(** The signal [connected] of a finished thread reaches its slot. *)
Definition deliver (tr : list Connection.event) (thread_client : option C)
    (w : window C) : window C :=
  fold_left (fun w r => on_connection_result r.1 thread_client w)
    (Connection.results tr) w.

(** One event.  A button that is disabled emits no click; a thread ends
    only if one was started. *)
Definition step (w : window C) (e : event) : window C :=
  match e with
  | ClickConnect tab => if connect_btn w then connect_to_appliance tab w else w
  | ThreadEnds SSLClient =>
      match connection_thread w with
      | Some host =>
          let '(tr, thread_client) := Connection.run SSLClient host in
          let w := deliver tr thread_client w in
          {| client := client w; is_connected := is_connected w;
             connection_thread := None;
             connect_btn := connect_btn w; disconnect_btn := disconnect_btn w;
             backup_btn := backup_btn w; system_info_btn := system_info_btn w;
             execute_btn := execute_btn w; send_cmd_btn := send_cmd_btn w |}
      | None => w
      end
  | ClickDisconnect => if disconnect_btn w then disconnect_from_appliance w else w
  end.

(** The window after a sequence of events. *)
Definition after (events : list event) : window C := fold_left step events initial.

(** What the fields say of each other in the three states of the session:
    disconnected, connecting, connected. *)
Definition coherent (w : window C) : Prop :=
  (is_connected w = true <-> is_Some (client w))
  /\ (is_Some (connection_thread w) -> is_connected w = false)
  /\ disconnect_btn w = is_connected w
  /\ backup_btn w = is_connected w
  /\ system_info_btn w = is_connected w
  /\ (connect_btn w = true
      <-> is_connected w = false /\ connection_thread w = None).

End Window.

End Lifecycle.

(** ** The backup button: [backup_appliance] *)
Module Backup.

(** How a click ends: one of the two message boxes, the
    [UnboundLocalError] of reading [backup_file] when nothing was assigned
    to it, or the exception of the send, which nothing catches. *)
Inductive outcome :=
| Created
| Failed
| UnboundLocalError
| Uncaught (msg : string).

Definition backup_command : string := "config backup list=all> last_backup.na".

Section Click.

Context {session : Type}.
Variable send_command : session -> string -> session * Dispatcher.outcome.

(** [backup_appliance]: the commands sent and how the click ends. *)
Definition backup_appliance (client : option session) : list string * outcome :=
  match client with
  | Some s =>
      match send_command s backup_command with
      | (_, Dispatcher.Returned backup_file) =>
          ([backup_command],
           if PyStr.contains "100 code=" (Dispatcher.repr backup_file)
           then Created else Failed)
      | (_, Dispatcher.Raised msg) => ([backup_command], Uncaught msg)
      end
  | None => ([], UnboundLocalError)
  end.

End Click.

End Backup.

(** ** Reading a profile back: [load_connection_profile] *)
Module Profiles.
Import Settings.

(** The truth value of what a key holds. *)
Definition truth (v : qvalue) : bool :=
  match v with
  | QStr s => PyStr.truthy s
  | QInt n => negb (n =? 0)
  | QList names => match names with [] => false | _ => true end
  | QBytes b => PyStr.truthy b
  end.

(** [settings.value(key, default)] *)
Definition value (st : store) (key : string) (default : qvalue) : qvalue :=
  match st !! key with
  | Some v => v
  | None => default
  end.

(** [QSpinBox.setValue] on the port field, whose range is 1 to 65535. *)
Definition spin (port : Z) : Z := Z.max 1 (Z.min 65535 port).

Section Load.

(** [type=int] on a stored value that is not an [int]: the conversion is
    the toolkit's; [None] is the exception it raises when there is none. *)
Variable to_int : qvalue -> option Z.

(** [settings.value(key, default, type=int)] *)
Definition value_int (st : store) (key : string) (default : Z) : option Z :=
  match st !! key with
  | Some (QInt n) => Some n
  | Some v => to_int v
  | None => Some default
  end.

(** [load_connection_profile(profile_name)]: the returned flag and the
    fields of the connection tab.  [setText] raises on a value that is not
    a [str]; the handler then returns [False] with what has been set so
    far. *)
Definition load_connection_profile (profile_name : string) (st : store)
    (tab : connection_tab) : bool * connection_tab :=
  let profile_section := "profiles/" +:+ profile_name in
  let host := value st (profile_section +:+ "/host") (QStr "") in
  match value_int st (profile_section +:+ "/port") 443 with
  | None => (false, tab)
  | Some port =>
      let user := value st (profile_section +:+ "/user") (QStr "") in
      if truth host && truth user then
        match host with
        | QStr host =>
            let tab :=
              {| host_edit := host; port_spin := spin port;
                 user_edit := user_edit tab; password_edit := password_edit tab |} in
            match user with
            | QStr user =>
                (true,
                 {| host_edit := host_edit tab; port_spin := port_spin tab;
                    user_edit := user; password_edit := password_edit tab |})
            | _ => (false, tab)
            end
        | _ => (false, tab)
        end
      else (false, tab)
  end.

End Load.

(** A toolkit that converts nothing. *)
Definition no_conversion (v : qvalue) : option Z := None.

(** The store after saving the profiles [lab] and [lab/old]. *)
Definition nested_store : store :=
  exec [SaveConnectionInfo lab_tab "2024-05-02 09:30:00" (Some "lab");
        SaveConnectionInfo lab_tab "2024-05-03 10:00:00" (Some "lab/old")] ∅.

End Profiles.

(** ** The terminal tab: [execute_terminal_command] and
    [on_terminal_command_executed] *)
Module Terminal.

(** What [append_to_terminal] is called with; the time stamps and the
    pictograms are left out. *)
Inductive shown :=
| NotConnected
| Prompt (command : string)
| Output (formatted_output : string)
| NoOutput
| Error (output : string)
| Rule.

(** A line that looks like a status code. *)
Definition is_status (line : string) : bool :=
  PyStr.startswith "100 code=" (PyStr.strip line)
  || PyStr.startswith "101 code=" (PyStr.strip line)
  || PyStr.startswith "102 code=" (PyStr.strip line).

(** [clean_output], the lines that are kept. *)
Definition clean_output (output : string) : list string :=
  List.filter (fun line => negb (is_status line)) (PyStr.split PyStr.LF output).

Definition formatted_output (output : string) : string :=
  PyStr.strip (PyText.join PyStr.nl (clean_output output)).

(** [on_terminal_command_executed(command, output, success)] *)
Definition on_terminal_command_executed (command output : string)
    (success : bool) : list shown :=
  (if success then
     if PyStr.truthy (formatted_output output)
     then [Output (formatted_output output)]
     else [NoOutput]
   else [Error output])
  ++ [Rule].

(** [execute_terminal_command]: what is shown, the history, and the list
    of commands of the dispatcher thread that is started, if one is.  The
    input line being cleared and the controls disabled are left out. *)
Definition execute_terminal_command (is_connected : bool)
    (terminal_input : string) (h : History.history)
    : list shown * History.history * option (list string) :=
  if negb is_connected then ([NotConnected], h, None)
  else
    let command := PyStr.strip terminal_input in
    if negb (PyStr.truthy command) then ([], h, None)
    else
      ([Prompt command], History.add_to_command_history command h,
       Some [command]).

(** The dispatcher thread of a terminal command and its slot: the
    trace of the thread, and what the terminal shows for its signals. *)
Definition show (tr : list Dispatcher.event) : list shown :=
  flat_map (fun '(command, output, success) =>
              on_terminal_command_executed command output success)
    (Dispatcher.executed tr).

End Terminal.

(** ** [setup.py]: the list of requirements *)
Module Setup.

(** The list comprehension over the lines of [requirements.txt], as the
    iteration over the file yields them. *)
Definition keep (line : string) : bool :=
  PyStr.truthy (PyStr.strip line) && negb (PyStr.startswith "#" line).

Definition requirements (fh : list string) : list string :=
  map PyStr.strip (List.filter keep fh).

End Setup.

(** * Properties *)

(** ** Rounding to a double

    The division and the product of the standard library's specification
    are shown to return a double nearest to the exact result, for operands
    with mantissas of 53 bits and results away from the subnormal and
    overflow ranges.  The facts about the progress value follow from that:
    rounding is monotone, and its relative error is at most [2^-53]. *)
Section RoundingProps.
Import Rounding.
Import Dispatcher.

(** *** Powers of two *)
Lemma bpow_pos e : (0 < bpow e)%R.
Proof. apply powerRZ_lt. lra. Qed.

Lemma bpow_add a b : bpow (a + b) = (bpow a * bpow b)%R.
Proof. apply powerRZ_add. lra. Qed.

Lemma bpow_succ e : bpow (e + 1) = (2 * bpow e)%R.
Proof. rewrite bpow_add. unfold bpow at 2. simpl. lra. Qed.

Lemma bpow_0 : bpow 0 = 1%R.
Proof. reflexivity. Qed.

Lemma bpow_nonneg k : 0 <= k -> bpow k = IZR (2 ^ k).
Proof.
  intros Hk. unfold bpow. rewrite <- (Z2Nat.id k) by assumption.
  rewrite <- pow_powerRZ. rewrite <- Zpower_nat_Z. 
  induction (Z.to_nat k) as [|n IH].
  - reflexivity.
  - rewrite Zpower_nat_succ_r, mult_IZR. simpl. rewrite IH. reflexivity.
Qed.

Lemma bpow_le a b : a <= b -> (bpow a <= bpow b)%R.
Proof.
  intros Hab. replace b with (a + (b - a)) by lia.
  rewrite bpow_add. rewrite (bpow_nonneg (b - a)) by lia.
  assert (H : 1 <= 2 ^ (b - a)).
  { assert (0 < 2 ^ (b - a)) by (apply Z.pow_pos_nonneg; lia). lia. }
  apply IZR_le in H. pose proof (bpow_pos a). nra.
Qed.

(** *** The number of bits of a mantissa *)
Lemma digits2_bounds p :
  2 ^ (Zpos (digits2_pos p) - 1) <= Zpos p < 2 ^ Zpos (digits2_pos p).
Proof.
  induction p as [p IH|p IH|]; simpl digits2_pos.
  - rewrite Pos2Z.inj_succ.
    replace (Z.succ (Zpos (digits2_pos p)) - 1)
      with (Z.succ (Zpos (digits2_pos p) - 1)) by lia.
    rewrite !Z.pow_succ_r by lia. lia.
  - rewrite Pos2Z.inj_succ.
    replace (Z.succ (Zpos (digits2_pos p)) - 1)
      with (Z.succ (Zpos (digits2_pos p) - 1)) by lia.
    rewrite !Z.pow_succ_r by lia. lia.
  - simpl. lia.
Qed.

Lemma digits2_unique p d :
  2 ^ (d - 1) <= Zpos p < 2 ^ d -> Zpos (digits2_pos p) = d.
Proof.
  intros [Hlo Hhi]. pose proof (digits2_bounds p) as [Hlo' Hhi'].
  assert (0 < d).
  { destruct (Z.ltb_spec 0 d); [assumption|].
    destruct (Z.eqb_spec d 0).
    - subst; simpl in *; lia.
    - rewrite Z.pow_neg_r in Hhi by lia. lia. }
  assert (d - 1 < Zpos (digits2_pos p)).
  { apply (Z.pow_lt_mono_r_iff 2); lia. }
  assert (Zpos (digits2_pos p) - 1 < d).
  { apply (Z.pow_lt_mono_r_iff 2); lia. }
  lia.
Qed.

(** *** Shifting a mantissa to the right

    [shr_1] drops the last bit of the mantissa and keeps, in the round and
    sticky bits, where the real being rounded lies in the wider slice. *)
Lemma div2_xO p : Zpos p~0 / 2 = Zpos p.
Proof. rewrite Pos2Z.inj_xO. symmetry. apply Z.div_unique with (r := 0); lia. Qed.

Lemma div2_xI p : Zpos p~1 / 2 = Zpos p.
Proof. rewrite Pos2Z.inj_xI. symmetry. apply Z.div_unique with (r := 1); lia. Qed.

Lemma shr_1_spec mrs e x :
  0 <= shr_m mrs ->
  inbetween (shr_m mrs) e (loc_of_shr_record mrs) x ->
  shr_m (shr_1 mrs) = shr_m mrs / 2
  /\ inbetween (shr_m (shr_1 mrs)) (e + 1) (loc_of_shr_record (shr_1 mrs)) x.
Proof.
  destruct mrs as [m r s]. cbn [shr_m]. intros Hm Hx.
  pose proof (bpow_pos e) as HB.
  destruct m as [|[p|p|]|]; [| | | |exfalso; lia].
  - split; [destruct r, s; reflexivity|].
    destruct r, s; cbn [shr_1 shr_m orb loc_of_shr_record inbetween] in *;
      unfold F2R in *; rewrite ?plus_IZR, ?mult_IZR in *; rewrite ?bpow_succ; lra.
  - split; [destruct r, s; cbn [shr_1 shr_m orb]; symmetry; apply div2_xI|].
    assert (E : IZR (Zpos p~1) = (2 * IZR (Zpos p) + 1)%R).
    { rewrite Pos2Z.inj_xI, plus_IZR, mult_IZR. reflexivity. }
    destruct r, s; cbn [shr_1 shr_m orb loc_of_shr_record inbetween] in *;
      unfold F2R in *; rewrite ?plus_IZR, ?mult_IZR, ?E in *; rewrite ?bpow_succ;
      set (u := IZR (Zpos p)) in *; clearbody u; nra.
  - split; [destruct r, s; cbn [shr_1 shr_m orb]; symmetry; apply div2_xO|].
    assert (E : IZR (Zpos p~0) = (2 * IZR (Zpos p))%R).
    { rewrite Pos2Z.inj_xO, mult_IZR. reflexivity. }
    destruct r, s; cbn [shr_1 shr_m orb loc_of_shr_record inbetween] in *;
      unfold F2R in *; rewrite ?plus_IZR, ?mult_IZR, ?E in *; rewrite ?bpow_succ;
      set (u := IZR (Zpos p)) in *; clearbody u; nra.
  - split; [destruct r, s; reflexivity|].
    destruct r, s; cbn [shr_1 shr_m orb loc_of_shr_record inbetween] in *;
      unfold F2R in *; rewrite ?plus_IZR, ?mult_IZR in *; rewrite ?bpow_succ; lra.
Qed.

Lemma iter_pos_nat {A} (f : A -> A) (p : positive) (x : A) :
  SpecFloat.iter_pos f p x = Nat.iter (Pos.to_nat p) f x.
Proof.
  revert x. induction p as [p IH|p IH|]; intros x; cbn [SpecFloat.iter_pos].
  - rewrite !IH, Pos2Nat.inj_xI.
    replace (S (2 * Pos.to_nat p)) with (Pos.to_nat p + (Pos.to_nat p + 1))%nat by lia.
    rewrite !Nat.iter_add. reflexivity.
  - rewrite !IH, Pos2Nat.inj_xO.
    replace (2 * Pos.to_nat p)%nat with (Pos.to_nat p + Pos.to_nat p)%nat by lia.
    rewrite Nat.iter_add. reflexivity.
  - reflexivity.
Qed.

Lemma shr_iter_spec (n : nat) mrs e x :
  0 <= shr_m mrs ->
  inbetween (shr_m mrs) e (loc_of_shr_record mrs) x ->
  shr_m (Nat.iter n shr_1 mrs) = shr_m mrs / 2 ^ Z.of_nat n
  /\ inbetween (shr_m (Nat.iter n shr_1 mrs)) (e + Z.of_nat n)
       (loc_of_shr_record (Nat.iter n shr_1 mrs)) x.
Proof.
  intros Hm Hx. induction n as [|n [IHm IHx]].
  - change (Nat.iter 0 shr_1 mrs) with mrs. rewrite Z.add_0_r. split; [|assumption].
    change (2 ^ Z.of_nat 0) with 1. symmetry. apply Z.div_1_r.
  - rewrite Nat.iter_succ.
    assert (Hpos : 0 <= shr_m (Nat.iter n shr_1 mrs)).
    { rewrite IHm. apply Z.div_pos; [assumption|]. apply Z.pow_pos_nonneg; lia. }
    destruct (shr_1_spec _ _ _ Hpos IHx) as [Hm1 Hx1].
    split.
    + rewrite Hm1, IHm, Nat2Z.inj_succ, Z.pow_succ_r by lia.
      rewrite Z.div_div by (try apply Z.pow_pos_nonneg; lia).
      f_equal. lia.
    + rewrite Nat2Z.inj_succ.
      replace (e + Z.succ (Z.of_nat n)) with (e + Z.of_nat n + 1) by lia.
      assumption.
Qed.

Lemma shr_spec mrs e n x :
  0 <= n -> 0 <= shr_m mrs ->
  inbetween (shr_m mrs) e (loc_of_shr_record mrs) x ->
  exists mrs', shr mrs e n = (mrs', e + n)
    /\ shr_m mrs' = shr_m mrs / 2 ^ n
    /\ inbetween (shr_m mrs') (e + n) (loc_of_shr_record mrs') x.
Proof.
  intros Hn Hm Hx. destruct n as [|p|p]; [| |lia].
  - exists mrs. cbn [shr]. rewrite Z.add_0_r. repeat split; [|assumption].
    symmetry. apply Z.div_1_r.
  - exists (SpecFloat.iter_pos shr_1 p mrs). cbn [shr]. split; [reflexivity|].
    rewrite iter_pos_nat.
    destruct (shr_iter_spec (Pos.to_nat p) mrs e x Hm Hx) as [H1 H2].
    rewrite positive_nat_Z in H1, H2. split; assumption.
Qed.

Lemma loc_of_shr_record_of_loc m l :
  loc_of_shr_record (shr_record_of_loc m l) = l.
Proof. destruct l as [|[]]; reflexivity. Qed.

Lemma shr_m_of_loc m l : shr_m (shr_record_of_loc m l) = m.
Proof. destruct l as [|[]]; reflexivity. Qed.

Lemma fexp64 z : -1074 <= z - 53 -> fexp 53 1024 z = z - 53.
Proof. intros H. unfold fexp, emin. lia. Qed.

Lemma Zdigits2_pos m : 0 < m -> 2 ^ (Zdigits2 m - 1) <= m < 2 ^ Zdigits2 m.
Proof.
  destruct m as [|p|p]; try lia. intros _. apply digits2_bounds.
Qed.

Lemma Zdigits2_unique m d : 2 ^ (d - 1) <= m < 2 ^ d -> 0 < m -> Zdigits2 m = d.
Proof.
  destruct m as [|p|p]; try lia. intros H _. apply digits2_unique. assumption.
Qed.

(** [shr_fexp] on a mantissa of at least 53 bits, away from the subnormal
    range: the mantissa is cut to 53 bits. *)
Lemma shr_fexp_spec m e l x :
  2 ^ 52 <= m -> - 1074 <= e + Zdigits2 m - 53 ->
  inbetween m e l x ->
  exists mrs', shr_fexp 53 1024 m e l = (mrs', e + Zdigits2 m - 53)
    /\ 2 ^ 52 <= shr_m mrs' < 2 ^ 53
    /\ shr_m mrs' = m / 2 ^ (Zdigits2 m - 53)
    /\ inbetween (shr_m mrs') (e + Zdigits2 m - 53) (loc_of_shr_record mrs') x.
Proof.
  intros Hm He Hx. unfold shr_fexp.
  assert (Hm0 : 0 < m) by lia.
  pose proof (Zdigits2_pos m Hm0) as [Hlo Hhi].
  set (d := Zdigits2 m) in *.
  assert (Hd : 53 <= d).
  { destruct (Z.ltb_spec d 53) as [Hlt|]; [|assumption].
    assert (2 ^ d <= 2 ^ 52) by (apply Z.pow_le_mono_r; lia). lia. }
  rewrite fexp64 by lia.
  replace (d + e - 53 - e) with (d - 53) by lia.
  destruct (shr_spec (shr_record_of_loc m l) e (d - 53) x) as (mrs' & Hs & Hm' & Hx').
  - lia.
  - rewrite shr_m_of_loc. lia.
  - rewrite shr_m_of_loc, loc_of_shr_record_of_loc. assumption.
  - exists mrs'. rewrite shr_m_of_loc in Hm'.
    replace (e + d - 53) with (e + (d - 53)) by lia.
    split; [assumption|]. split; [|split; assumption].
    rewrite Hm'.
    assert (Hp : 0 < 2 ^ (d - 53)) by (apply Z.pow_pos_nonneg; lia).
    assert (E1 : 2 ^ (d - 1) = 2 ^ 52 * 2 ^ (d - 53)).
    { rewrite <- Z.pow_add_r by lia. f_equal. lia. }
    assert (E2 : 2 ^ d = 2 ^ 53 * 2 ^ (d - 53)).
    { rewrite <- Z.pow_add_r by lia. f_equal. lia. }
    split.
    + apply Z.div_le_lower_bound; lia.
    + apply Z.div_lt_upper_bound; lia.
Qed.

(** *** Rounding to nearest, ties to even *)
Lemma p52 : 2 ^ 52 = 4503599627370496.
Proof. reflexivity. Qed.

Lemma p53 : 2 ^ 53 = 9007199254740992.
Proof. reflexivity. Qed.

Ltac to_reals :=
  unfold F2R in *;
  repeat match goal with
         | H : (_ <= _)%Z |- _ => apply IZR_le in H
         | H : (_ < _)%Z |- _ => apply IZR_lt in H
         | H : (_ <= _ < _)%Z |- _ => destruct H
         | H : @eq Z _ _ |- _ => apply (f_equal IZR) in H
         end;
  repeat rewrite ?plus_IZR, ?mult_IZR, ?minus_IZR, ?opp_IZR in *.

(** The choice made by [round_nearest_even] on a mantissa of 53 bits is a
    nearest double; when it carries into a 54th bit, the double is the first
    one of the next binade. *)
Lemma rne_rounds M E l x :
  2 ^ 52 <= M < 2 ^ 53 -> inbetween M E l x ->
  (round_nearest_even M l < 2 ^ 53 /\ rounds_to x (round_nearest_even M l) E)
  \/ (round_nearest_even M l = 2 ^ 53 /\ rounds_to x (2 ^ 52) (E + 1)).
Proof.
  rewrite p52, p53. intros HM Hx. pose proof (bpow_pos E) as HB.
  assert (Hcase : forall m, m = M \/ m = M + 1 ->
            round_nearest_even M l = m ->
            (m = M -> (2 * x <= F2R (2 * M + 1) E)%R /\ (F2R M E <= x)%R) ->
            (m = M + 1 -> (F2R (2 * M + 1) E <= 2 * x)%R /\ (x < F2R (M + 1) E)%R) ->
            (round_nearest_even M l < 2 ^ 53 /\ rounds_to x (round_nearest_even M l) E)
            \/ (round_nearest_even M l = 2 ^ 53 /\ rounds_to x (2 ^ 52) (E + 1))).
  { intros m Hm -> Hsame Hup. rewrite p52, p53. unfold rounds_to. rewrite p52, p53.
    destruct Hm as [->| ->].
    - left. destruct (Hsame eq_refl) as [H1 H2]. split; [lia|].
      split; [lia|]. split; [assumption|].
      split; intros Hc; to_reals; set (u := IZR M) in *; clearbody u; nra.
    - destruct (Hup eq_refl) as [H1 H2].
      destruct (Z.eq_dec (M + 1) 9007199254740992) as [Heq|Hne].
      + right. split; [assumption|]. split; [lia|].
        assert (HMv : M = 9007199254740991) by lia. subst M.
        unfold F2R in *. rewrite !bpow_succ. clear Heq Hsame Hup HM.
        split; [|split; intros Hc; [lia|]]; to_reals; lra.
      + left. split; [lia|]. split; [lia|].
        split; [|split; intros Hc; [|lia]]; to_reals;
          set (u := IZR M) in *; clearbody u; nra. }
  destruct l as [|[| |]]; cbn [round_nearest_even inbetween] in *.
  - apply (Hcase M); [tauto|reflexivity| |intros; lia].
    intros _. subst x. to_reals. split; nra.
  - destruct Hx as [[Hx1 Hx2] Hx3]. destruct (Z.even M).
    + apply (Hcase M); [tauto|reflexivity| |intros; lia].
      intros _. split; lra.
    + apply (Hcase (M + 1)); [tauto|reflexivity|intros; lia|].
      intros _. split; lra.
  - destruct Hx as [[Hx1 Hx2] Hx3].
    apply (Hcase M); [tauto|reflexivity| |intros; lia].
    intros _. split; lra.
  - destruct Hx as [[Hx1 Hx2] Hx3].
    apply (Hcase (M + 1)); [tauto|reflexivity|intros; lia|].
    intros _. split; lra.
Qed.

Lemma inbetween_exact m e : inbetween m e loc_Exact (F2R m e).
Proof. reflexivity. Qed.

(** The rounding step shared by the division and the product. *)
Lemma round_aux_spec M E L x :
  2 ^ 52 <= M -> - 1074 <= E + Zdigits2 M - 53 -> E + Zdigits2 M - 53 < 971 ->
  inbetween M E L x ->
  exists m e, binary_round_aux 53 1024 false M E L = S754_finite false m e
    /\ rounds_to x (Zpos m) e
    /\ E + Zdigits2 M - 53 <= e <= E + Zdigits2 M - 52.
Proof.
  intros HM Hlo Hhi Hx. unfold binary_round_aux.
  destruct (shr_fexp_spec M E L x HM Hlo Hx) as (mrs1 & -> & Hr1 & _ & Hx1).
  set (E1 := E + Zdigits2 M - 53) in *.
  set (M1 := shr_m mrs1) in *. set (l1 := loc_of_shr_record mrs1) in *.
  set (m1 := round_nearest_even M1 l1).
  assert (Hfinal : exists e, (e = E1 \/ e = E1 + 1) /\
             exists mrs2, shr_fexp 53 1024 m1 E1 loc_Exact = (mrs2, e)
               /\ 0 < shr_m mrs2 /\ rounds_to x (shr_m mrs2) e).
  { destruct (rne_rounds M1 E1 l1 x Hr1 Hx1) as [[Hlt Hr]|[Heq Hr]];
      fold m1 in Hlt || fold m1 in Heq.
    - fold m1 in Hr. assert (Hm1 : 2 ^ 52 <= m1) by apply Hr.
      assert (Hd : Zdigits2 m1 = 53) by (apply Zdigits2_unique; lia).
      destruct (shr_fexp_spec m1 E1 loc_Exact (F2R m1 E1)) as (mrs2 & Hs & _ & Hm2 & _).
      + assumption.
      + rewrite Hd. lia.
      + apply inbetween_exact.
      + rewrite Hd in Hs, Hm2. replace (E1 + 53 - 53) with E1 in Hs by lia.
        change (2 ^ (53 - 53)) with 1 in Hm2. rewrite Z.div_1_r in Hm2.
        exists E1. split; [tauto|]. exists mrs2. rewrite Hm2.
        split; [assumption|]. split; [lia|assumption].
    - assert (Hd : Zdigits2 m1 = 54) by (rewrite Heq; reflexivity).
      destruct (shr_fexp_spec m1 E1 loc_Exact (F2R m1 E1)) as (mrs2 & Hs & _ & Hm2 & _).
      + rewrite Heq. lia.
      + rewrite Hd. lia.
      + apply inbetween_exact.
      + rewrite Hd in Hs, Hm2. replace (E1 + 54 - 53) with (E1 + 1) in Hs by lia.
        rewrite Heq in Hm2. change (2 ^ 53 / 2 ^ (54 - 53)) with (2 ^ 52) in Hm2.
        exists (E1 + 1). split; [tauto|]. exists mrs2. rewrite Hm2.
        split; [assumption|]. split; [reflexivity|assumption]. }
  destruct Hfinal as (e & He & mrs2 & -> & Hpos & Hr).
  destruct (shr_m mrs2) as [|p|p] eqn:Hp; try lia.
  change (1024 - 53) with 971.
  assert (Hle : (e <=? 971) = true) by (apply Z.leb_le; lia).
  rewrite Hle. exists p, e. split; [reflexivity|]. split; [assumption|]. lia.
Qed.

(** No rounding on a mantissa of 53 bits. *)
Lemma round_aux_exact m e :
  Zpos (digits2_pos m) = 53 -> - 1074 <= e <= 971 ->
  binary_round_aux 53 1024 false (Zpos m) e loc_Exact = S754_finite false m e.
Proof.
  intros Hd He. unfold binary_round_aux, shr_fexp. cbn [Zdigits2].
  rewrite Hd, fexp64 by lia.
  replace (53 + e - 53 - e) with 0 by lia.
  cbn [shr shr_record_of_loc shr_m loc_of_shr_record round_nearest_even Zdigits2].
  rewrite Hd, fexp64 by lia.
  replace (53 + e - 53 - e) with 0 by lia. cbn [shr shr_record_of_loc shr_m].
  change (1024 - 53) with 971.
  assert (Hle : (e <=? 971) = true) by (apply Z.leb_le; lia).
  rewrite Hle. reflexivity.
Qed.

(** *** Conversion, division, product, truncation *)
Lemma bpow_opp k : (bpow (- k) * bpow k = 1)%R.
Proof. rewrite <- bpow_add. replace (- k + k) with 0 by lia. reflexivity. Qed.

Lemma iter_xO p k : Zpos (Pos.iter xO p k) = Zpos p * 2 ^ Zpos k.
Proof.
  induction k as [|k IH] using Pos.peano_ind.
  - cbn [Pos.iter]. lia.
  - rewrite Pos.iter_succ, Pos2Z.inj_xO, IH, Pos2Z.inj_succ, Z.pow_succ_r by lia. lia.
Qed.

(** [float(a)] is exact below [2^53], with a mantissa of 53 bits. *)
Lemma normalize_spec a :
  0 < a < 2 ^ 53 ->
  exists m e, binary_normalize 53 1024 a 0 false = S754_finite false m e
    /\ Zpos (digits2_pos m) = 53 /\ F2R (Zpos m) e = IZR a /\ - 52 <= e <= 0.
Proof.
  intros [Ha0 Ha]. destruct a as [|p|p]; try lia.
  pose proof (digits2_bounds p) as [Hlo Hhi].
  cbn [binary_normalize]. unfold binary_round.
  assert (Hd1 : 1 <= Zpos (digits2_pos p)) by lia.
  remember (Zpos (digits2_pos p)) as d eqn:Hdd.
  assert (Hd : d <= 53).
  { destruct (Z.ltb_spec 53 d) as [Hlt|]; [|assumption].
    assert (2 ^ 53 <= 2 ^ (d - 1)) by (apply Z.pow_le_mono_r; lia). lia. }
  rewrite Z.add_0_r, fexp64 by lia. unfold shl_align. rewrite Z.sub_0_r.
  destruct (d - 53) as [|k|k] eqn:Hk; try lia.
  - exists p, 0. assert (d = 53) by lia.
    split; [apply round_aux_exact; lia|].
    split; [lia|]. split; [|lia].
    unfold F2R. rewrite bpow_0. lra.
  - assert (Hk' : Zpos k = 53 - d) by lia.
    exists (Pos.iter xO p k), (Z.neg k).
    assert (Hdig : Zpos (digits2_pos (Pos.iter xO p k)) = 53).
    { apply digits2_unique. rewrite iter_xO, Hk'.
      assert (E1 : 2 ^ (53 - 1) = 2 ^ (d - 1) * 2 ^ (53 - d)).
      { rewrite <- Z.pow_add_r by lia. f_equal. lia. }
      assert (E2 : 2 ^ 53 = 2 ^ d * 2 ^ (53 - d)).
      { rewrite <- Z.pow_add_r by lia. f_equal. lia. }
      assert (0 < 2 ^ (53 - d)) by (apply Z.pow_pos_nonneg; lia).
      rewrite E1, E2. split.
      - apply Z.mul_le_mono_nonneg_r; [lia|assumption].
      - apply Z.mul_lt_mono_pos_r; assumption. }
    split; [apply round_aux_exact; [assumption|lia]|].
    split; [assumption|]. split; [|lia].
    unfold F2R. rewrite iter_xO, mult_IZR.
    rewrite <- (bpow_nonneg (Zpos k)) by lia.
    change (Z.neg k) with (- Zpos k).
    rewrite Rmult_assoc, (Rmult_comm (bpow (Zpos k))), bpow_opp. lra.
Qed.

(** Where the exact quotient lies, from the remainder of the division of
    the mantissas. *)
Lemma new_location_spec q E m2 r :
  0 < m2 -> 0 <= r < m2 ->
  inbetween q E (new_location m2 r) ((IZR q + IZR r / IZR m2) * bpow E).
Proof.
  intros Hm2 [Hr0 Hr]. pose proof (bpow_pos E) as HB.
  assert (Hm2r : (0 < IZR m2)%R) by (apply IZR_lt in Hm2; assumption).
  set (t := (IZR r / IZR m2)%R).
  assert (Ht : (t * IZR m2 = IZR r)%R) by (unfold t; field; lra).
  assert (Hexact : r = 0 -> inbetween q E loc_Exact ((IZR q + t) * bpow E)).
  { intros ->. cbn [inbetween]. unfold F2R. assert (t = 0%R) by nra. nra. }
  assert (Hin : forall c, r <> 0 ->
            match c with
            | Lt => 2 * r < m2
            | Eq => 2 * r = m2
            | Gt => m2 < 2 * r
            end -> inbetween q E (loc_Inexact c) ((IZR q + t) * bpow E)).
  { intros c Hr1 Hc. cbn [inbetween]. unfold F2R.
    rewrite !plus_IZR, !mult_IZR.
    assert (H0 : (0 < IZR r)%R) by (apply IZR_lt; lia).
    apply IZR_lt in Hr.
    assert (Ht0 : (0 < t < 1)%R) by (split; nra).
    split; [split; nra|].
    destruct c.
    - apply (f_equal IZR) in Hc. rewrite mult_IZR in Hc.
      assert (2 * t = 1)%R by nra. nra.
    - apply IZR_lt in Hc. rewrite mult_IZR in Hc.
      assert (2 * t < 1)%R by nra. nra.
    - apply IZR_lt in Hc. rewrite mult_IZR in Hc.
      assert (1 < 2 * t)%R by nra. nra. }
  unfold new_location.
  destruct (Z.even m2) eqn:Hev; [unfold new_location_even|unfold new_location_odd];
    (destruct (Z.eqb_spec r 0) as [Hz|Hnz]; [apply Hexact; assumption|]).
  - apply Hin; [assumption|].
    destruct (Z.compare_spec (2 * r) m2); lia.
  - assert (Hodd : Z.odd m2 = true) by (rewrite <- Z.negb_even, Hev; reflexivity).
    apply Z.odd_spec in Hodd as [j Hj].
    destruct (Z.compare_spec (2 * r + 1) m2); apply (Hin _ Hnz); lia.
Qed.

Lemma digits_53_bounds m : Zpos (digits2_pos m) = 53 -> 2 ^ 52 <= Zpos m < 2 ^ 53.
Proof. intros H. pose proof (digits2_bounds m) as Hb. rewrite H in Hb. exact Hb. Qed.

Lemma Zdigits2_range m lo hi :
  0 <= lo -> 2 ^ lo <= m < 2 ^ hi -> lo < Zdigits2 m <= hi.
Proof.
  intros Hlo0 [Hlo Hhi].
  assert (Hm : 0 < m) by (assert (0 < 2 ^ lo) by (apply Z.pow_pos_nonneg; lia); lia).
  pose proof (Zdigits2_pos m Hm) as [Hdl Hdh].
  assert (Hd0 : 0 < Zdigits2 m) by (destruct m; cbn; lia).
  split.
  - apply (Z.pow_lt_mono_r_iff 2); lia.
  - assert (Zdigits2 m - 1 < hi); [|lia].
    assert (0 <= hi).
    { destruct (Z.leb_spec 0 hi); [assumption|]. rewrite Z.pow_neg_r in Hhi by lia. lia. }
    apply (Z.pow_lt_mono_r_iff 2); lia.
Qed.

(** The quotient of two doubles with mantissas of 53 bits. *)
Lemma SFdiv_spec m1 e1 m2 e2 :
  Zpos (digits2_pos m1) = 53 -> Zpos (digits2_pos m2) = 53 ->
  - 1021 <= e1 - e2 <= 1020 ->
  exists m e,
    SFdiv 53 1024 (S754_finite false m1 e1) (S754_finite false m2 e2)
    = S754_finite false m e
    /\ rounds_to (F2R (Zpos m1) e1 / F2R (Zpos m2) e2) (Zpos m) e
    /\ e1 - e2 - 53 <= e <= e1 - e2 - 51.
Proof.
  intros Hd1 Hd2 He.
  pose proof (digits_53_bounds m1 Hd1) as Hb1.
  pose proof (digits_53_bounds m2 Hd2) as Hb2.
  rewrite p52, p53 in Hb1, Hb2.
  unfold SFdiv, SFdiv_core_binary. cbn [Zdigits2 xorb]. rewrite Hd1, Hd2.
  rewrite fexp64 by lia.
  replace (Z.min (53 + e1 - (53 + e2) - 53) (e1 - e2)) with (e1 - e2 - 53) by lia.
  replace (e1 - e2 - (e1 - e2 - 53)) with 53 by lia.
  rewrite Z.shiftl_mul_pow2 by lia.
  pose proof (Z_div_mod (Zpos m1 * 2 ^ 53) (Zpos m2) eq_refl) as Hdm.
  destruct (Z.div_eucl (Zpos m1 * 2 ^ 53) (Zpos m2)) as [q r].
  destruct Hdm as [Hq Hr]. rewrite p53 in Hq.
  assert (Hqb : 2 ^ 52 <= q < 2 ^ 54).
  { change (2 ^ 52) with 4503599627370496. change (2 ^ 54) with 18014398509481984.
    split; nia. }
  pose proof (Zdigits2_range q 52 54 ltac:(lia) Hqb) as Hdq.
  destruct (round_aux_spec q (e1 - e2 - 53) (new_location (Zpos m2) r)
              (F2R (Zpos m1) e1 / F2R (Zpos m2) e2)) as (m & e & Hres & Hrt & Hebound).
  - lia.
  - lia.
  - lia.
  - assert (Hx : (F2R (Zpos m1) e1 / F2R (Zpos m2) e2
                  = (IZR q + IZR r / IZR (Zpos m2)) * bpow (e1 - e2 - 53))%R).
    { unfold F2R. apply (f_equal IZR) in Hq.
      rewrite plus_IZR, !mult_IZR in Hq.
      replace (e1 - e2 - 53) with (e1 + (- e2 + - 53)) by lia.
      rewrite !bpow_add.
      pose proof (bpow_opp e2) as Ho2. pose proof (bpow_pos e2) as Hp2.
      pose proof (bpow_pos (- e2)) as Hp2'.
      assert (Ho53 : (bpow (- 53) * 9007199254740992 = 1)%R).
      { rewrite <- (bpow_opp 53). f_equal. rewrite (bpow_nonneg 53) by lia. reflexivity. }
      assert (Hm2 : (0 < IZR (Zpos m2))%R) by (apply IZR_lt; lia).
      assert (Hinv : (/ bpow e2 = bpow (- e2))%R).
      { apply Rmult_eq_reg_r with (bpow e2); [|lra]. rewrite Ho2. field. lra. }
      unfold Rdiv. rewrite Rinv_mult, Hinv.
      set (b1 := bpow e1) in *. set (b2 := bpow (- e2)) in *. set (b := bpow (- 53)) in *.
      set (M1 := IZR (Zpos m1)) in *. set (M2 := IZR (Zpos m2)) in *.
      assert (Hq' : (M1 = (M2 * IZR q + IZR r) * b)%R).
      { transitivity ((M1 * 9007199254740992) * b)%R.
        - rewrite Rmult_assoc, (Rmult_comm _ b), Ho53. ring.
        - rewrite Hq. reflexivity. }
      rewrite Hq'. field. lra. }
    rewrite Hx. apply new_location_spec; lia.
  - exists m, e. split; [assumption|]. split; [assumption|]. lia.
Qed.

(** The product of two doubles with mantissas of 53 bits. *)
Lemma SFmul_spec m1 e1 m2 e2 :
  Zpos (digits2_pos m1) = 53 -> Zpos (digits2_pos m2) = 53 ->
  - 1126 <= e1 + e2 <= 917 ->
  exists m e,
    SFmul 53 1024 (S754_finite false m1 e1) (S754_finite false m2 e2)
    = S754_finite false m e
    /\ rounds_to (F2R (Zpos m1) e1 * F2R (Zpos m2) e2) (Zpos m) e
    /\ e1 + e2 + 52 <= e <= e1 + e2 + 54.
Proof.
  intros Hd1 Hd2 He.
  pose proof (digits_53_bounds m1 Hd1) as Hb1.
  pose proof (digits_53_bounds m2 Hd2) as Hb2.
  rewrite p52, p53 in Hb1, Hb2.
  unfold SFmul. cbn [xorb].
  assert (Hpb : 2 ^ 104 <= Zpos (m1 * m2) < 2 ^ 106).
  { rewrite Pos2Z.inj_mul.
    change (2 ^ 104) with (4503599627370496 * 4503599627370496).
    change (2 ^ 106) with (9007199254740992 * 9007199254740992).
    split; nia. }
  pose proof (Zdigits2_range _ 104 106 ltac:(lia) Hpb) as Hdq.
  destruct (round_aux_spec (Zpos (m1 * m2)) (e1 + e2) loc_Exact
              (F2R (Zpos m1) e1 * F2R (Zpos m2) e2)) as (m & e & Hres & Hrt & Hebound).
  - assert (2 ^ 52 <= 2 ^ 104) by (apply Z.pow_le_mono_r; lia). lia.
  - lia.
  - lia.
  - cbn [inbetween]. unfold F2R. rewrite Pos2Z.inj_mul, mult_IZR, bpow_add. ring.
  - exists m, e. split; [assumption|]. split; [assumption|]. lia.
Qed.

(** Truncation of a positive double with a negative exponent. *)
Lemma floor_F2R m k :
  0 <= k -> (IZR (m / 2 ^ k) <= F2R m (- k) < IZR (m / 2 ^ k) + 1)%R.
Proof.
  intros Hk.
  assert (Hp : 0 < 2 ^ k) by (apply Z.pow_pos_nonneg; lia).
  pose proof (Z_div_mod m (2 ^ k) ltac:(lia)) as Hdm.
  unfold Z.div. destruct (Z.div_eucl m (2 ^ k)) as [q r]. destruct Hdm as [Hq [Hr0 Hr]].
  unfold F2R. subst m. rewrite plus_IZR, mult_IZR, <- (bpow_nonneg k) by lia.
  pose proof (bpow_opp k) as Ho. pose proof (bpow_pos k) as Hp1.
  pose proof (bpow_pos (- k)) as Hp2.
  rewrite (bpow_nonneg k) in Ho, Hp1 by lia. rewrite (bpow_nonneg k) by lia.
  apply IZR_le in Hr0. apply IZR_lt in Hr.
  set (b := bpow (- k)) in *. set (P := IZR (2 ^ k)) in *. set (rr := IZR r) in *.
  set (qq := IZR q).
  assert (E : ((P * qq + rr) * b = qq + rr * b)%R).
  { replace ((P * qq + rr) * b)%R with (qq * (b * P) + rr * b)%R by ring. rewrite Ho. ring. }
  rewrite E. split; [nra|].
  assert (rr * b < 1)%R; [|lra].
  rewrite <- Ho. rewrite (Rmult_comm b P). apply Rmult_lt_compat_r; assumption.
Qed.

(** *** Order and error of a rounding *)
Ltac norm_neg :=
  repeat match goal with
         | |- context [Z.opp (Zpos ?p)] => change (Z.opp (Zpos p)) with (Zneg p)
         | H : context [Z.opp (Zpos ?p)] |- _ =>
             change (Z.opp (Zpos p)) with (Zneg p) in H
         end.

Lemma bpow_neg_val k : 0 <= k -> (bpow (- k) * IZR (2 ^ k) = 1)%R.
Proof. intros Hk. rewrite <- (bpow_nonneg k) by lia. apply bpow_opp. Qed.

(** A bound on the value bounds the exponent. *)
Lemma rounds_to_exp_lt x m e k :
  rounds_to x m e -> (4 * x < 18014398509481982 * bpow k)%R -> e < k.
Proof.
  intros (Hm & _ & Hlo1 & Hlo2) Hx. rewrite p52, p53 in *.
  destruct (Z.ltb_spec e k) as [|Hge]; [assumption|exfalso].
  apply bpow_le in Hge. pose proof (bpow_pos k) as Hk. pose proof (bpow_pos e) as He.
  assert (Hlow : (18014398509481982 * bpow e <= 4 * x)%R).
  { destruct (Z.eq_dec m 4503599627370496) as [Heq|Hne].
    - specialize (Hlo2 Heq). subst m. unfold F2R in Hlo2. rewrite minus_IZR, mult_IZR in Hlo2. lra.
    - assert (Hgt : 4503599627370496 < m) by lia. specialize (Hlo1 Hgt).
      unfold F2R in Hlo1. rewrite minus_IZR, mult_IZR in Hlo1.
      apply IZR_lt in Hgt. nra. }
  nra.
Qed.

(** Rounding is monotone: of two reals, the larger one does not get the
    smaller double. *)
Lemma rounds_to_mono x m e x' m' e' :
  rounds_to x m e -> rounds_to x' m' e' -> (x < x')%R ->
  e < e' \/ (e = e' /\ m <= m').
Proof.
  intros (Hm & _ & Hlo1 & Hlo2) (Hm' & Hup' & _ & _) Hxx'. rewrite p52, p53 in *.
  destruct (Z.lt_trichotomy e e') as [Hlt|[Heq|Hgt]]; [left; assumption| |].
  - right. split; [assumption|]. subst e'.
    destruct (Z.leb_spec m m') as [|Hmm]; [assumption|exfalso].
    assert (Hgt : 4503599627370496 < m) by lia. specialize (Hlo1 Hgt).
    pose proof (bpow_pos e) as He.
    assert (Hz : 2 * m' + 1 <= 2 * m - 1) by lia. apply IZR_le in Hz.
    unfold F2R in *. nra.
  - exfalso. pose proof (bpow_pos e') as He'.
    assert (Hb : (2 * bpow e' <= bpow e)%R).
    { rewrite <- bpow_succ. apply bpow_le. lia. }
    assert (Hlow : (18014398509481983 * bpow e <= 4 * x)%R).
    { destruct (Z.eq_dec m 4503599627370496) as [Heq|Hne].
      - specialize (Hlo2 Heq). subst m. unfold F2R in Hlo2.
        rewrite minus_IZR, mult_IZR in Hlo2. lra.
      - assert (Hgt' : 4503599627370496 < m) by lia. specialize (Hlo1 Hgt').
        unfold F2R in Hlo1. rewrite minus_IZR, mult_IZR in Hlo1.
        assert (Hge' : 4503599627370497 <= m) by lia.
        apply IZR_le in Hge'. pose proof (bpow_pos e). nra. }
    assert (Hupp : (2 * x' <= 18014398509481983 * bpow e')%R).
    { unfold F2R in Hup'. rewrite plus_IZR, mult_IZR in Hup'.
      destruct Hm' as [_ Hm']. assert (Hm2 : m' <= 9007199254740991) by lia.
      apply IZR_le in Hm2. nra. }
    nra.
Qed.

Lemma F2R_lex_lt m e m' e' :
  2 ^ 52 <= m < 2 ^ 53 -> 2 ^ 52 <= m' < 2 ^ 53 ->
  e < e' \/ (e = e' /\ m < m') -> (F2R m e < F2R m' e')%R.
Proof.
  rewrite p52, p53. intros [Hm1 Hm2] [Hm1' Hm2'] Hlex. unfold F2R.
  pose proof (bpow_pos e) as He.
  apply IZR_le in Hm1, Hm1'. apply IZR_lt in Hm2, Hm2'.
  destruct Hlex as [Hlt|[-> Hlt]].
  - assert (Hb : (2 * bpow e <= bpow e')%R).
    { rewrite <- bpow_succ. apply bpow_le. lia. }
    nra.
  - apply IZR_lt in Hlt. nra.
Qed.

(** The relative error of a rounding is at most [2^-53]. *)
Lemma rounds_to_rel x m e :
  rounds_to x m e ->
  (F2R m e * 9007199254740991 <= x * 9007199254740992
   /\ x * 9007199254740992 <= F2R m e * 9007199254740993)%R.
Proof.
  intros (Hm & Hup & Hlo1 & Hlo2). rewrite p52, p53 in *.
  pose proof (bpow_pos e) as He. destruct Hm as [Hm1 Hm2].
  assert (Hlow : (F2R (2 * m - 1) e <= 2 * x)%R).
  { destruct (Z.eq_dec m 4503599627370496) as [Heq|Hne].
    - specialize (Hlo2 Heq). subst m. unfold F2R in *. rewrite ?minus_IZR, ?mult_IZR in *. lra.
    - apply Hlo1. lia. }
  unfold F2R in *. rewrite ?plus_IZR, ?minus_IZR, ?mult_IZR in *.
  apply IZR_le in Hm1. set (u := IZR m) in *. clearbody u.
  split; nra.
Qed.

(** *** The progress value *)
Lemma float_of_int_spec a :
  0 < a < 2 ^ 53 ->
  exists m e, Float64.float_of_int a = S754_finite false m e
    /\ Zpos (digits2_pos m) = 53 /\ F2R (Zpos m) e = IZR a /\ - 52 <= e <= 0.
Proof. apply normalize_spec. Qed.

Lemma float_100 : Float64.float_of_int 100 = S754_finite false 7036874417766400 (-46).
Proof. reflexivity. Qed.

Lemma F2R_100 : F2R 7036874417766400 (-46) = 100%R.
Proof.
  unfold F2R. pose proof (bpow_neg_val 46 ltac:(lia)) as H.
  change (2 ^ 46) with 70368744177664 in H. norm_neg. lra.
Qed.

Lemma int_of_float_neg m e :
  e < 0 -> Float64.int_of_float (S754_finite false m e) = Some (Zpos m / 2 ^ (- e)).
Proof.
  intros He. destruct e as [|k|k]; try lia. cbn [Float64.int_of_float cond_Zopp].
  rewrite Z.shiftr_div_pow2 by lia. reflexivity.
Qed.

Lemma rounds_to_digits x m e : rounds_to x (Zpos m) e -> Zpos (digits2_pos m) = 53.
Proof. intros [Hm _]. apply digits2_unique. exact Hm. Qed.

(** The two roundings behind a progress value, for a batch that a machine
    can hold. *)
Lemma progress_steps a N :
  1 <= a <= N -> N < 2 ^ 53 ->
  exists m1 e1 m2 e2,
    Float64.truediv a N = Some (S754_finite false m1 e1)
    /\ rounds_to (IZR a / IZR N) (Zpos m1) e1
    /\ Float64.mul_int (S754_finite false m1 e1) 100 = S754_finite false m2 e2
    /\ rounds_to (100 * F2R (Zpos m1) e1) (Zpos m2) e2
    /\ e2 < 0
    /\ progress_value a N = Some (Zpos m2 / 2 ^ (- e2)).
Proof.
  intros Ha HN.
  destruct (float_of_int_spec a ltac:(lia)) as (ma & ea & Hfa & Hda & Hva & Hea).
  destruct (float_of_int_spec N ltac:(lia)) as (mN & eN & HfN & HdN & HvN & HeN).
  destruct (SFdiv_spec ma ea mN eN Hda HdN ltac:(lia)) as (m1 & e1 & Hdiv & Hr1 & He1).
  rewrite Hva, HvN in Hr1.
  assert (HNr : (1 <= IZR N)%R) by (apply IZR_le; lia).
  assert (Hx : (0 < IZR a / IZR N <= 1)%R).
  { assert (Har : (1 <= IZR a <= IZR N)%R) by (split; apply IZR_le; lia).
    split.
    - apply Rdiv_lt_0_compat; lra.
    - apply Rmult_le_reg_r with (IZR N); [lra|]. unfold Rdiv.
      rewrite Rmult_assoc, Rinv_l by lra. lra. }
  assert (He1u : e1 < - 51).
  { apply (rounds_to_exp_lt _ _ _ _ Hr1).
    pose proof (bpow_neg_val 51 ltac:(lia)) as H. change (2 ^ 51) with 2251799813685248 in H.
    norm_neg. lra. }
  pose proof (rounds_to_digits _ _ _ Hr1) as Hd1.
  destruct (SFmul_spec m1 e1 7036874417766400 (-46) Hd1 eq_refl ltac:(lia))
    as (m2 & e2 & Hmul & Hr2 & He2).
  rewrite F2R_100 in Hr2. rewrite (Rmult_comm _ 100) in Hr2.
  assert (Hv1 : (F2R (Zpos m1) e1 < 2)%R).
  { destruct Hr1 as ([_ Hm1] & _). rewrite p53 in Hm1. apply IZR_lt in Hm1.
    assert (Hb : (bpow e1 <= bpow (- 52))%R) by (apply bpow_le; lia).
    pose proof (bpow_neg_val 52 ltac:(lia)) as H. change (2 ^ 52) with 4503599627370496 in H.
    norm_neg.
    pose proof (bpow_pos e1). unfold F2R. nra. }
  assert (He2u : e2 < - 44).
  { apply (rounds_to_exp_lt _ _ _ _ Hr2).
    pose proof (bpow_neg_val 44 ltac:(lia)) as H. change (2 ^ 44) with 17592186044416 in H.
    norm_neg. lra. }
  exists m1, e1, m2, e2.
  assert (Htd : Float64.truediv a N = Some (S754_finite false m1 e1)).
  { unfold Float64.truediv. destruct (Z.eqb_spec N 0) as [|_]; [lia|].
    rewrite Hfa, HfN. unfold Float64.prec, Float64.emax. rewrite Hdiv. reflexivity. }
  assert (Hmi : Float64.mul_int (S754_finite false m1 e1) 100 = S754_finite false m2 e2).
  { unfold Float64.mul_int. rewrite float_100. exact Hmul. }
  repeat split; try assumption; try apply Hr1; try apply Hr2; try lia.
  unfold progress_value. rewrite Htd, Hmi. apply int_of_float_neg. lia.
Qed.

Lemma progress_some a N :
  1 <= a <= N -> N < 2 ^ 53 -> exists p, progress_value a N = Some p.
Proof.
  intros Ha HN. destruct (progress_steps a N Ha HN) as (m1 & e1 & m2 & e2 & H).
  exists (Zpos m2 / 2 ^ (- e2)). apply H.
Qed.

Lemma floor_le m e m' e' :
  e < 0 -> e' < 0 -> (F2R m e <= F2R m' e')%R ->
  m / 2 ^ (- e) <= m' / 2 ^ (- e').
Proof.
  intros He He' Hle.
  pose proof (floor_F2R m (- e) ltac:(lia)) as [H1 _].
  pose proof (floor_F2R m' (- e') ltac:(lia)) as [_ H2].
  rewrite Z.opp_involutive in H1, H2.
  assert (H : (IZR (m / 2 ^ (- e)) < IZR (m' / 2 ^ (- e') + 1))%R)
    by (rewrite plus_IZR; lra).
  apply lt_IZR in H. lia.
Qed.

(** The progress value does not go down as commands complete. *)
Lemma progress_mono a b N p q :
  1 <= a <= b -> b <= N -> N < 2 ^ 53 ->
  progress_value a N = Some p -> progress_value b N = Some q -> p <= q.
Proof.
  intros Hab HbN HN Hp Hq.
  destruct (Z.eq_dec a b) as [->|Hne]; [rewrite Hp in Hq; injection Hq; lia|].
  destruct (progress_steps a N ltac:(lia) HN)
    as (m1 & e1 & m2 & e2 & Hd & Hr1 & Hm & Hr2 & He2 & Hpa).
  destruct (progress_steps b N ltac:(lia) HN)
    as (m1' & e1' & m2' & e2' & Hd' & Hr1' & Hm' & Hr2' & He2' & Hpb).
  rewrite Hp in Hpa. rewrite Hq in Hpb.
  injection Hpa as ->. injection Hpb as ->.
  apply floor_le; [assumption..|].
  assert (Hx : (IZR a / IZR N < IZR b / IZR N)%R).
  { assert (Hlt : (IZR a < IZR b)%R) by (apply IZR_lt; lia).
    assert (HNp : (0 < IZR N)%R) by (apply IZR_lt; lia).
    unfold Rdiv. apply Rmult_lt_compat_r; [apply Rinv_0_lt_compat|]; assumption. }
  pose proof (rounds_to_mono _ _ _ _ _ _ Hr1 Hr1' Hx) as Hlex1.
  assert (Hcases : (e1 = e1' /\ Zpos m1 = Zpos m1')
                   \/ (e1 < e1' \/ (e1 = e1' /\ Zpos m1 < Zpos m1'))) by lia.
  destruct Hcases as [[-> Hmm]|Hlt].
  - injection Hmm as ->. rewrite Hm in Hm'. injection Hm' as -> ->. lra.
  - assert (Hv : (F2R (Zpos m1) e1 < F2R (Zpos m1') e1')%R).
    { apply F2R_lex_lt; [apply Hr1|apply Hr1'|assumption]. }
    assert (Hy : (100 * F2R (Zpos m1) e1 < 100 * F2R (Zpos m1') e1')%R) by lra.
    pose proof (rounds_to_mono _ _ _ _ _ _ Hr2 Hr2' Hy) as Hlex2.
    assert (Hcases : (e2 = e2' /\ Zpos m2 = Zpos m2')
                     \/ (e2 < e2' \/ (e2 = e2' /\ Zpos m2 < Zpos m2'))) by lia.
    destruct Hcases as [[-> ->]|Hlt2]; [lra|].
    apply Rlt_le. apply F2R_lex_lt; [apply Hr2|apply Hr2'|assumption].
Qed.

(** A double divided by itself is 1. *)
Lemma SFdiv_self m e :
  Zpos (digits2_pos m) = 53 ->
  SFdiv 53 1024 (S754_finite false m e) (S754_finite false m e)
  = S754_finite false 4503599627370496 (-52).
Proof.
  intros Hd. unfold SFdiv, SFdiv_core_binary. cbn [Zdigits2 xorb]. rewrite Hd.
  replace (53 + e - (53 + e)) with 0 by lia. replace (e - e) with 0 by lia.
  change (Z.min (fexp 53 1024 0) 0) with (-53). change (0 - -53) with 53.
  cbv iota. rewrite Z.shiftl_mul_pow2 by lia.
  assert (Hq : (Zpos m * 2 ^ 53) / Zpos m = 2 ^ 53).
  { rewrite Z.mul_comm. apply Z.div_mul. lia. }
  assert (Hr : (Zpos m * 2 ^ 53) mod Zpos m = 0).
  { rewrite Z.mul_comm. apply Z.mod_mul. lia. }
  unfold Z.div in Hq. unfold Z.modulo in Hr.
  destruct (Z.div_eucl (Zpos m * 2 ^ 53) (Zpos m)) as [q r]. subst q r.
  assert (Hloc : new_location (Zpos m) 0 = loc_Exact).
  { unfold new_location. destruct (Z.even (Zpos m)); reflexivity. }
  rewrite Hloc. reflexivity.
Qed.

(** The last progress value is 100. *)
Lemma progress_full N : 1 <= N < 2 ^ 53 -> progress_value N N = Some 100.
Proof.
  intros HN.
  destruct (float_of_int_spec N ltac:(lia)) as (mN & eN & HfN & HdN & _).
  unfold progress_value, Float64.truediv.
  destruct (Z.eqb_spec N 0) as [|_]; [lia|].
  rewrite HfN. unfold Float64.prec, Float64.emax.
  rewrite (SFdiv_self mN eN HdN). reflexivity.
Qed.

(** C4, as the code has it.  After [completed] commands out of [total]
    (fewer than [2^45]), the progress value is the integer part of the
    double [(completed / total) * 100]: it is the integer part of
    [100 * completed / total], or one less, which the two roundings make
    possible only when [total] divides [100 * completed]. *)
Theorem progress_truncates (completed total : Z) :
  1 <= completed <= total -> total < 2 ^ 45 ->
  exists p, progress_value completed total = Some p
    /\ (p = 100 * completed / total
        \/ (p = 100 * completed / total - 1 /\ (100 * completed) mod total = 0)).
Proof.
  rename completed into a, total into N. intros Ha HN.
  assert (HN53 : N < 2 ^ 53).
  { assert (2 ^ 45 < 2 ^ 53) by (apply Z.pow_lt_mono_r; lia). lia. }
  destruct (progress_steps a N Ha HN53)
    as (m1 & e1 & m2 & e2 & _ & Hr1 & _ & Hr2 & He2 & Hp).
  exists (Zpos m2 / 2 ^ (- e2)). split; [assumption|].
  pose proof (rounds_to_rel _ _ _ Hr1) as [Hl1 Hu1].
  pose proof (rounds_to_rel _ _ _ Hr2) as [Hl2 Hu2].
  pose proof (floor_F2R (Zpos m2) (- e2) ltac:(lia)) as [Hf1 Hf2].
  rewrite Z.opp_involutive in Hf1, Hf2.
  set (p := Zpos m2 / 2 ^ (- e2)) in *. clearbody p.
  set (V1 := F2R (Zpos m1) e1) in *. set (V2 := F2R (Zpos m2) e2) in *.
  clearbody V1 V2.
  pose proof (Z_div_mod (100 * a) N ltac:(lia)) as Hdm.
  unfold Z.div, Z.modulo. destruct (Z.div_eucl (100 * a) N) as [k r].
  destruct Hdm as [Hk [Hr0 HrN]].
  assert (Hk0 : 0 <= k <= 100) by nia.
  change (2 ^ 45) with 35184372088832 in HN.
  set (iN := (/ IZR N)%R).
  assert (HNr : (1 <= IZR N < 35184372088832)%R)
    by (split; [apply IZR_le|apply IZR_lt]; lia).
  assert (HiN : (IZR N * iN = 1)%R) by (unfold iN; field; lra).
  assert (HiN0 : (0 < iN)%R) by (unfold iN; apply Rinv_0_lt_compat; lra).
  assert (HiN1 : (1 < 35184372088832 * iN)%R) by nra.
  assert (HX : (100 * (IZR a / IZR N) = IZR k + IZR r * iN)%R).
  { apply (f_equal IZR) in Hk. rewrite plus_IZR, !mult_IZR in Hk.
    unfold Rdiv. fold iN.
    replace (100 * (IZR a * iN))%R with ((100 * IZR a) * iN)%R by ring.
    rewrite Hk. replace ((IZR N * IZR k + IZR r) * iN)%R
      with (IZR k * (IZR N * iN) + IZR r * iN)%R by ring.
    rewrite HiN. ring. }
  set (X := (IZR a / IZR N)%R) in *. clearbody X.
  assert (HT1 : (IZR r * iN <= 1 - iN)%R).
  { assert (Hr1' : r <= N - 1) by lia. apply IZR_le in Hr1'.
    rewrite minus_IZR in Hr1'. nra. }
  assert (HT0 : (0 <= IZR r * iN)%R).
  { apply IZR_le in Hr0. nra. }
  set (T := (IZR r * iN)%R) in *.
  destruct Hk0 as [Hk0 Hk100]. apply IZR_le in Hk0, Hk100.
  assert (Hup : (V2 < IZR k + 1)%R) by (clearbody T; lra).
  assert (Hpk : p <= k).
  { assert (H : (IZR p < IZR (k + 1))%R) by (rewrite plus_IZR; lra).
    apply lt_IZR in H. lia. }
  destruct (Z.eq_dec r 0) as [Hz|Hnz].
  - assert (Hlow : (IZR k - 1 < V2)%R) by (clearbody T; lra).
    assert (Hpk' : k - 1 <= p).
    { assert (H : (IZR (k - 1) < IZR (p + 1))%R) by (rewrite plus_IZR, minus_IZR; lra).
      apply lt_IZR in H. lia. }
    destruct (Z.eq_dec p k) as [->|]; [left; reflexivity|right].
    split; [lia|assumption].
  - left.
    assert (HTN : (iN <= T)%R).
    { unfold T. assert (Hr1' : 1 <= r) by lia. apply IZR_le in Hr1'. nra. }
    assert (Hlow : (IZR k <= V2)%R) by (clearbody T; lra).
    assert (H : (IZR k < IZR (p + 1))%R) by (rewrite plus_IZR; lra).
    apply lt_IZR in H. lia.
Qed.

End RoundingProps.

(** ** The dispatcher: the shape of a run *)
Section DispatcherRun.
Import Dispatcher.
Context {session : Type}.
Variable send_command : session → string → session * outcome.

Lemma progress_some_nat (n total : nat) :
  (1 ≤ n ≤ total)%nat → Z.of_nat total < 2 ^ 53 →
  ∃ p, progress_value (Z.of_nat n) (Z.of_nat total) = Some p.
Proof. intros Hn Ht. apply progress_some; lia. Qed.

Lemma attempt_state (s : session) (command : string) :
  (attempt send_command s command).2 = (send_command s command).1.
Proof. unfold attempt. by destruct (send_command s command) as [s' [r|msg]]. Qed.

Lemma attempt_events (s : session) (command : string) :
  ∃ output success,
    (attempt send_command s command).1
    = [Send command; CommandExecuted command output success].
Proof.
  unfold attempt. destruct (send_command s command) as [s' [r|msg]]; eauto.
Qed.

(** One turn of the loop on a command that is not blank, in a batch that
    fits. *)
Lemma run_from_cons (total i : nat) (command : string) (rest : list string)
    (s : session) :
  nonblank command = true →
  (i + 1 ≤ total)%nat → Z.of_nat total < 2 ^ 53 →
  ∃ p, progress_value (Z.of_nat (i + 1)) (Z.of_nat total) = Some p
    ∧ run_from send_command total i (command :: rest) s
      = (attempt send_command s command).1
        ++ [Progress p; Msleep 100]
        ++ run_from send_command total (S i) rest (send_command s command).1.
Proof.
  intros Hnb Hi Ht.
  destruct (progress_some_nat (i + 1) total ltac:(lia) Ht) as [p Hp].
  exists p. split; [assumption|].
  cbn [run_from]. rewrite Hnb, <- attempt_state.
  destruct (attempt send_command s command) as [evs s']. by rewrite Hp.
Qed.

Lemma run_from_skip (total i : nat) (command : string) (rest : list string)
    (s : session) :
  nonblank command = false →
  run_from send_command total i (command :: rest) s
  = run_from send_command total (S i) rest s.
Proof. intros Hnb. cbn [run_from]. by rewrite Hnb. Qed.

(** The trace of a batch without blank entries: four events per command. *)
Lemma run_from_shape (total : nat) (commands : list string) (i : nat) (s : session) :
  Forall (λ c, nonblank c = true) commands →
  (i + length commands ≤ total)%nat → Z.of_nat total < 2 ^ 53 →
  ∃ steps : list (string * string * bool * Z),
    run_from send_command total i commands s
    = flat_map (λ '(c, o, b, p), [Send c; CommandExecuted c o b; Progress p; Msleep 100])
        steps
    ∧ map (λ '(c, o, b, p), c) steps = commands
    ∧ ∀ j st, steps !! j = Some st →
        progress_value (Z.of_nat (i + j + 1)) (Z.of_nat total) = Some st.2.
Proof.
  intros Hnb. revert i s.
  induction Hnb as [|command rest Hc Hrest IH]; intros i s Hi Ht.
  - exists []. repeat split. intros j st Hj. by rewrite lookup_nil in Hj.
  - cbn [length] in Hi.
    destruct (run_from_cons total i command rest s Hc ltac:(lia) Ht) as (p & Hp & ->).
    destruct (attempt_events s command) as (o & b & ->).
    destruct (IH (S i) (send_command s command).1 ltac:(lia) Ht) as (steps & -> & Hcmds & Hprog).
    exists ((command, o, b, p) :: steps). split; [reflexivity|].
    split; [cbn [map]; by rewrite Hcmds|].
    intros [|j] st Hj.
    + injection Hj as <-. by rewrite Nat.add_0_r.
    + cbn [lookup] in Hj. replace (i + S j + 1)%nat with (S i + j + 1)%nat by lia.
      by apply Hprog.
Qed.

Lemma run_from_app (total : nat) (l1 l2 : list string) (i : nat) (s : session) :
  (i + length (l1 ++ l2) ≤ total)%nat → Z.of_nat total < 2 ^ 53 →
  run_from send_command total i (l1 ++ l2) s
  = run_from send_command total i l1 s
    ++ run_from send_command total (i + length l1) l2 (advance send_command l1 s).
Proof.
  revert i s. induction l1 as [|command l1 IH]; intros i s Hi Ht.
  - cbn [app length advance run_from]. by rewrite Nat.add_0_r.
  - rewrite <- app_comm_cons in *. cbn [length] in Hi.
    cbn [advance length]. destruct (nonblank command) eqn:Hnb.
    + destruct (run_from_cons total i command (l1 ++ l2) s Hnb ltac:(lia) Ht)
        as (p & Hp & ->).
      destruct (run_from_cons total i command l1 s Hnb ltac:(lia) Ht)
        as (p' & Hp' & ->).
      rewrite Hp in Hp'. injection Hp' as <-.
      rewrite IH by lia. rewrite <- !app_assoc.
      by replace (S i + length l1)%nat with (i + S (length l1))%nat by lia.
    + rewrite !run_from_skip by done. rewrite IH by lia.
      by replace (S i + length l1)%nat with (i + S (length l1))%nat by lia.
Qed.

Lemma sent_app (t1 t2 : list event) : sent (t1 ++ t2) = sent t1 ++ sent t2.
Proof. apply omap_app. Qed.

(** Every entry that is not blank is sent, whatever the session does. *)
Lemma sent_run_from (total : nat) (commands : list string) (i : nat) (s : session) :
  (i + length commands ≤ total)%nat → Z.of_nat total < 2 ^ 53 →
  sent (run_from send_command total i commands s) = List.filter nonblank commands.
Proof.
  revert i s. induction commands as [|command rest IH]; intros i s Hi Ht; [reflexivity|].
  cbn [length] in Hi. cbn [List.filter]. destruct (nonblank command) eqn:Hnb.
  - destruct (run_from_cons total i command rest s Hnb ltac:(lia) Ht) as (p & Hp & ->).
    destruct (attempt_events s command) as (o & b & ->).
    rewrite !sent_app, IH by lia. reflexivity.
  - rewrite run_from_skip by done. apply IH; lia.
Qed.

(** C7.  When the send of one command of a batch raises, the dispatcher
    emits for it the event with the text of the exception and the flag
    [False], then the progress value and the pause, and goes on with the
    rest of the batch from the state the session is in; and every entry of
    the batch that is not blank is sent. *)
Theorem dispatcher_goes_on (pre : list string) (command : string)
    (post : list string) (s : session) (msg : string) :
  Z.of_nat (length (pre ++ command :: post)) < 2 ^ 53 →
  nonblank command = true →
  (send_command (advance send_command pre s) command).2 = Raised msg →
  (∃ p,
     run send_command (pre ++ command :: post) s
     = run_from send_command (length (pre ++ command :: post)) 0 pre s
       ++ [Send command; CommandExecuted command ("Error: " +:+ msg) false;
           Progress p; Msleep 100]
       ++ run_from send_command (length (pre ++ command :: post)) (S (length pre)) post
            (send_command (advance send_command pre s) command).1)
  ∧ sent (run send_command (pre ++ command :: post) s)
    = List.filter nonblank (pre ++ command :: post).
Proof.
  intros Ht Hnb Hraise. unfold run. split.
  - rewrite run_from_app by (done || lia).
    set (total := length (pre ++ command :: post)) in *.
    assert (Hlen : (length pre + 1 ≤ total)%nat).
    { unfold total. rewrite length_app. cbn [length]. lia. }
    destruct (run_from_cons total (0 + length pre) command post
                (advance send_command pre s) Hnb ltac:(lia) Ht) as (p & Hp & ->).
    exists p. unfold attempt.
    destruct (send_command (advance send_command pre s) command) as [s' [r|m]];
      cbn [snd] in Hraise; [discriminate|]. injection Hraise as ->.
    reflexivity.
  - apply sent_run_from; [lia|assumption].
Qed.

End DispatcherRun.

(** ** The dispatcher: events, order and progress *)
Section DispatcherEvents.
Import Dispatcher.
Context {session : Type}.
Variable send_command : session → string → session * outcome.

Abbreviation blocks :=
  (flat_map (λ '(c, o, b, p), [Send c; CommandExecuted c o b; Progress p; Msleep 100])).

Lemma executed_blocks (steps : list (string * string * bool * Z)) :
  executed (blocks steps) = map fst steps.
Proof.
  induction steps as [|[[[c o] b] p] steps IH]; [reflexivity|].
  cbn. f_equal. exact IH.
Qed.

Lemma progress_values_blocks (steps : list (string * string * bool * Z)) :
  progress_values (blocks steps) = map snd steps.
Proof.
  induction steps as [|[[[c o] b] p] steps IH]; [reflexivity|].
  cbn. f_equal. exact IH.
Qed.

Lemma dialogue_blocks (steps : list (string * string * bool * Z)) :
  dialogue (blocks steps)
  = flat_map (λ '(c, o, b), [Send c; CommandExecuted c o b]) (map fst steps).
Proof.
  induction steps as [|[[[c o] b] p] steps IH]; [reflexivity|].
  cbn. do 2 f_equal. exact IH.
Qed.

(** C3.  On a batch that is not empty and has no blank entry (and that a
    machine can hold: fewer than [2^53] entries), the dispatcher emits one
    per-command event per command, in the order of the batch; what passes
    between the thread and the session is, command after command, the send
    followed by the event of that command; there are as many progress values
    as commands, they never go down, and the last one is 100. *)
Theorem dispatcher_events (commands : list string) (s : session) :
  commands ≠ [] →
  Forall (λ c, nonblank c = true) commands →
  Z.of_nat (length commands) < 2 ^ 53 →
  (executed (run send_command commands s)).*1.*1 = commands
  ∧ dialogue (run send_command commands s)
    = flat_map (λ '(c, o, b), [Send c; CommandExecuted c o b])
        (executed (run send_command commands s))
  ∧ length (progress_values (run send_command commands s)) = length commands
  ∧ (∀ j1 j2 p1 p2,
       (j1 ≤ j2)%nat →
       progress_values (run send_command commands s) !! j1 = Some p1 →
       progress_values (run send_command commands s) !! j2 = Some p2 →
       p1 ≤ p2)
  ∧ last (progress_values (run send_command commands s)) = Some 100.
Proof.
  intros Hne Hnb Ht. unfold run.
  destruct (run_from_shape send_command (length commands) commands 0 s Hnb
              ltac:(lia) Ht) as (steps & -> & Hcmds & Hprog).
  rewrite executed_blocks, progress_values_blocks, dialogue_blocks.
  assert (Hlen : length steps = length commands).
  { rewrite <- Hcmds. by rewrite length_map. }
  assert (Hat : ∀ j p, map snd steps !! j = Some p →
            (j < length commands)%nat
            ∧ progress_value (Z.of_nat (j + 1)) (Z.of_nat (length commands)) = Some p).
  { intros j p Hj. rewrite list_lookup_fmap in Hj.
    destruct (steps !! j) as [st|] eqn:Hst; [|discriminate].
    injection Hj as <-. split.
    - rewrite <- Hlen. by apply lookup_lt_Some in Hst.
    - by apply (Hprog j st). }
  split; [|split; [reflexivity|split; [|split]]].
  - rewrite <- Hcmds. clear. induction steps as [|[[[c o] b] p] steps IH]; [reflexivity|].
    cbn. by rewrite IH.
  - by rewrite length_map.
  - intros j1 j2 p1 p2 Hj H1 H2.
    apply Hat in H1 as [_ H1]. apply Hat in H2 as [Hj2 H2].
    apply (progress_mono (Z.of_nat (j1 + 1)) (Z.of_nat (j2 + 1))
             (Z.of_nat (length commands))); (assumption || lia).
  - rewrite last_lookup, length_map, Hlen.
    destruct (map snd steps !! Nat.pred (length commands)) as [p|] eqn:Hp.
    + apply Hat in Hp as [_ Hp].
      assert (Hn : (0 < length commands)%nat) by (destruct commands; [done|cbn; lia]).
      replace (Nat.pred (length commands) + 1)%nat with (length commands) in Hp by lia.
      rewrite progress_full in Hp by lia. congruence.
    + apply lookup_ge_None in Hp. rewrite length_map, Hlen in Hp.
      destruct commands; [done|cbn in Hp; lia].
Qed.

End DispatcherEvents.

Lemma dispatcher_events_witness :
  last (Dispatcher.progress_values
          (Dispatcher.run Dispatcher.appliance
             ["config network interface show"; "bogus_cmd"] tt)) = Some 100.
Proof.
  apply (dispatcher_events Dispatcher.appliance
           ["config network interface show"; "bogus_cmd"] tt).
  - discriminate.
  - repeat constructor.
  - reflexivity.
Defined.

Lemma dispatcher_goes_on_witness :
  Dispatcher.sent
    (Dispatcher.run Monitor.no_ike ["help"; "monitor getikesa"; "system ident"] tt)
  = List.filter Dispatcher.nonblank ["help"; "monitor getikesa"; "system ident"].
Proof.
  apply (dispatcher_goes_on Monitor.no_ike ["help"] "monitor getikesa" ["system ident"]
           tt "timed out").
  - reflexivity.
  - reflexivity.
  - reflexivity.
Defined.

(** ** The progress value *)
Section ProgressProps.
Import Dispatcher.

(** After 2 commands out of 3 the code emits 66; the nearest integer to
    [200 / 3] is 67. *)
Lemma progress_not_nearest :
  progress_value 2 3 = Some 66 ∧ ¬ nearest_integer 66 (100 * 2) 3.
Proof.
  split; [reflexivity|]. unfold nearest_integer. lia.
Qed.

Lemma progress_truncates_witness :
  ∃ p, progress_value 29 100 = Some p
    ∧ (p = 100 * 29 / 100
       ∨ (p = 100 * 29 / 100 - 1 ∧ (100 * 29) mod 100 = 0)).
Proof.
  apply (progress_truncates 29 100).
  - split; discriminate.
  - reflexivity.
Defined.

(** The second case does occur: 29 commands out of 100 give 28. *)
Lemma progress_29_of_100 : progress_value 29 100 = Some 28.
Proof. reflexivity. Qed.

End ProgressProps.

(** ** The monitor poller *)
Section MonitorProps.
Import Monitor.
Context {session : Type}.
Variable send_command : session → string → session * Dispatcher.outcome.

(** C5, as the code has it.  A round of the loop on a connected poller, for
    the kind [ipsec]: when both queries return, it sends [monitor getikesa]
    then [monitor getsa] and publishes the two texts with one line feed
    between them; when the first query raises, the second one is not sent
    and the error text is published; when the second raises, the error text
    is published after the two sends.  For the kinds [system] and
    [interface] a round sends one command.  Every turn of the loop is such a
    round. *)
Theorem monitor_round_sends (s : session) :
  (∀ s1 s2 ikesa sa,
     send_command s "monitor getikesa" = (s1, Dispatcher.Returned ikesa) →
     send_command s1 "monitor getsa" = (s2, Dispatcher.Returned sa) →
     round send_command "ipsec" (Some s)
     = ([Send "monitor getikesa"; Send "monitor getsa";
         Data (Dispatcher.repr ikesa +:+ PyStr.nl +:+ Dispatcher.repr sa);
         Msleep 2000], Some s2))
  ∧ (∀ s1 msg,
       send_command s "monitor getikesa" = (s1, Dispatcher.Raised msg) →
       round send_command "ipsec" (Some s)
       = ([Send "monitor getikesa"; Data ("Error: " +:+ msg); Msleep 2000], Some s1))
  ∧ (∀ s1 s2 ikesa msg,
       send_command s "monitor getikesa" = (s1, Dispatcher.Returned ikesa) →
       send_command s1 "monitor getsa" = (s2, Dispatcher.Raised msg) →
       round send_command "ipsec" (Some s)
       = ([Send "monitor getikesa"; Send "monitor getsa";
           Data ("Error: " +:+ msg); Msleep 2000], Some s2))
  ∧ sent (round send_command "system" (Some s)).1 = ["monitor system"]
  ∧ sent (round send_command "interface" (Some s)).1 = ["monitor interface"]
  ∧ (∀ monitor_type is_running client,
       rounds send_command monitor_type (true :: is_running) client
       = (round send_command monitor_type client).1
         :: rounds send_command monitor_type is_running
              (round send_command monitor_type client).2).
Proof.
  repeat split.
  - intros s1 s2 ikesa sa H1 H2. unfold round, poll, fetch. simpl.
    by rewrite H1, H2.
  - intros s1 msg H1. unfold round, poll, fetch. simpl. by rewrite H1.
  - intros s1 s2 ikesa msg H1 H2. unfold round, poll, fetch. simpl.
    by rewrite H1, H2.
  - unfold round, poll, poll_one, fetch. simpl.
    by destruct (send_command s "monitor system") as [s' [r|msg]].
  - unfold round, poll, poll_one, fetch. simpl.
    by destruct (send_command s "monitor interface") as [s' [r|msg]].
  - intros monitor_type is_running client. simpl.
    by destruct (round send_command monitor_type client).
Qed.

(** The loop is left at the first test that reads the flag as false:
    nothing is sent or published from then on, whatever the later values of
    the flag. *)
Lemma rounds_stop (upper : string → string) (monitor_type : string)
    (later : list bool) (client : option session) :
  rounds send_command monitor_type (false :: later) client = []
  ∧ run send_command upper monitor_type (false :: later) client
    = [Started ("Monitoring " +:+ upper monitor_type +:+ "...")].
Proof. split; reflexivity. Qed.

End MonitorProps.

(** With a session whose IKE query times out, a round for [ipsec] sends one
    command, not two, and publishes the error. *)
Lemma ipsec_round_single_send :
  Monitor.sent (Monitor.round Monitor.no_ike "ipsec" (Some tt)).1 = ["monitor getikesa"]
  ∧ Monitor.published (Monitor.round Monitor.no_ike "ipsec" (Some tt)).1
    = ["Error: timed out"]
  ∧ Monitor.sent (Monitor.round Monitor.no_ike "ipsec" (Some tt)).1
    ≠ ["monitor getikesa"; "monitor getsa"].
Proof. repeat split. discriminate. Qed.

Lemma monitor_round_sends_witness :
  Monitor.round Monitor.no_ike "ipsec" (Some tt)
  = ([Monitor.Send "monitor getikesa"; Monitor.Data "Error: timed out";
      Monitor.Msleep 2000], Some tt).
Proof.
  destruct (monitor_round_sends Monitor.no_ike tt) as (_ & Hraise & _).
  apply (Hraise tt "timed out"). reflexivity.
Defined.

(** ** The dispatcher: what each command yields *)
Section DispatcherProps.
Import Dispatcher.

(** C1, at an input where the code departs from it.  The appliance answers
    [bogus_cmd] with an error status: the text has no success marker, the
    dispatcher says so in the annotation, and the flag it emits is
    [True]. *)
Theorem flag_true_without_marker :
  PyStr.contains success_marker "200 code=00a00300 msg=Command not found" = false
  ∧ executed (run appliance ["bogus_cmd"] tt)
    = [("bogus_cmd",
        "200 code=00a00300 msg=Command not found | Command execution failed.",
        true)].
Proof. split; vm_compute; reflexivity. Qed.

(** The flag only tells whether [send_command] came back. *)
Lemma attempt_flag {session : Type}
    (send_command : session → string → session * outcome)
    (s : session) (command : string) :
  executed (attempt send_command s command).1
  = [(command,
      match (send_command s command).2 with
      | Returned r => annotate r
      | Raised msg => "Error: " +:+ msg
      end,
      match (send_command s command).2 with
      | Returned _ => true
      | Raised _ => false
      end)].
Proof.
  unfold attempt. by destruct (send_command s command) as [s' [r|msg]].
Qed.

End DispatcherProps.

(** ** The batch tab *)
Section BatchProps.
Import Batch.

Lemma filter_commands_kept (text command : string) :
  command ∈ filter_commands text →
  PyStr.truthy command = true ∧ PyStr.startswith "#" command = false.
Proof.
  unfold filter_commands. destruct (PyStr.truthy (PyStr.strip text)).
  - intros Hin. apply list_elem_of_fmap in Hin as (cmd & -> & Hin).
    apply list_elem_of_In, filter_In in Hin as [_ Hkeep].
    unfold keep in Hkeep. apply andb_true_iff in Hkeep as [Ht Hc].
    by apply negb_true_iff in Hc.
  - intros Hin. by apply elem_of_nil in Hin.
Qed.

(** The claim of C2 fails on the appliance that knows one command: the
    dispatcher sends two commands for the four lines, not one. *)
Lemma four_lines_not_single :
  Dispatcher.sent
    (dispatch Dispatcher.appliance (execute_commands true four_lines true) tt)
  ≠ ["config network interface show"].
Proof. vm_compute. discriminate. Qed.

(** C2, as the code has it.  For the four lines, the filter keeps
    [config network interface show] and [bogus_cmd], and the dispatcher
    sends these two commands, in this order, whatever the session answers;
    and for every text, a line kept by the filter is neither blank nor a
    comment. *)
Theorem four_lines_dispatch {session : Type}
    (send_command : session → string → session * Dispatcher.outcome)
    (s : session) :
  execute_commands true four_lines true
  = Dispatched ["config network interface show"; "bogus_cmd"]
  ∧ Dispatcher.sent (dispatch send_command (execute_commands true four_lines true) s)
    = ["config network interface show"; "bogus_cmd"]
  ∧ (∀ text command,
       command ∈ filter_commands text →
       PyStr.truthy command = true ∧ PyStr.startswith "#" command = false).
Proof.
  assert (Hex : execute_commands true four_lines true
                = Dispatched ["config network interface show"; "bogus_cmd"])
    by (vm_compute; reflexivity).
  split; [exact Hex|]. split; [|apply filter_commands_kept].
  rewrite Hex. unfold dispatch, Dispatcher.run. cbn [length Dispatcher.run_from].
  change (Dispatcher.nonblank "config network interface show") with true.
  change (Dispatcher.nonblank "bogus_cmd") with true.
  change (Dispatcher.progress_value (Z.of_nat (0 + 1)) (Z.of_nat 2)) with (Some 50).
  change (Dispatcher.progress_value (Z.of_nat (1 + 1)) (Z.of_nat 2)) with (Some 100).
  cbv iota. unfold Dispatcher.attempt.
  destruct (send_command s "config network interface show") as [s1 [r1|m1]];
    destruct (send_command s1 "bogus_cmd") as [s2 [r2|m2]]; reflexivity.
Qed.

Lemma four_lines_dispatch_witness :
  PyStr.truthy "bogus_cmd" = true ∧ PyStr.startswith "#" "bogus_cmd" = false.
Proof.
  destruct (four_lines_dispatch Dispatcher.appliance tt) as (_ & _ & Hkept).
  apply (Hkept four_lines "bogus_cmd").
  vm_compute. apply list_elem_of_In. simpl. auto.
Defined.

End BatchProps.

(** ** The profile store *)
Section SettingsProps.
Import Settings.

Lemma lookup_remove_under (section key : string) (st : store) :
  under section key = true → remove section st !! key = None.
Proof.
  intros Hu. unfold remove. apply map_lookup_filter_None. right.
  intros v _ Hf. change (under section key = false) in Hf. congruence.
Qed.

Lemma lookup_remove_other (section key : string) (st : store) :
  under section key = false → remove section st !! key = st !! key.
Proof.
  intros Hu. unfold remove.
  destruct (st !! key) as [v|] eqn:Hk.
  - apply map_lookup_filter_Some. by split.
  - apply map_lookup_filter_None. by left.
Qed.

Lemma remove_nothing (section : string) (st : store) :
  (∀ key, under section key = true → st !! key = None) →
  remove section st = st.
Proof.
  intros Hnone. apply map_eq. intros key.
  destruct (under section key) eqn:Hu.
  - rewrite lookup_remove_under by done. symmetry. by apply Hnone.
  - by apply lookup_remove_other.
Qed.

Lemma list_remove_NoDup (x : string) (l : list string) :
  NoDup l → x ∉ list_remove x l.
Proof.
  induction 1 as [|y l Hy Hnd IH]; simpl.
  - apply not_elem_of_nil.
  - destruct (String.eqb_spec y x) as [->|Hne]; [done|].
    rewrite not_elem_of_cons. split; [congruence | done].
Qed.

End SettingsProps.

(** ** The profile store: names stay distinct *)
Section SettingsInvariant.
Import Settings.

(** A key made of a profile section and a field is not the key of the name
    list: [list] has no [/] in it. *)
Lemma field_key_not_list (name field : string) :
  ("profiles/" +:+ name) +:+ String "/" field ≠ "profiles/list".
Proof.
  intros H. injection H as H.
  destruct name as [|a1 [|a2 [|a3 [|a4 [|a5 name]]]]];
    repeat first [discriminate H | injection H as H | injection H as _ H].
Qed.

Lemma get_saved_profiles_insert (key : string) (v : qvalue) (st : store) :
  key ≠ "profiles/list" →
  get_saved_profiles (setValue key v st) = get_saved_profiles st.
Proof.
  intros Hne. unfold get_saved_profiles, setValue. by rewrite lookup_insert_ne.
Qed.

Lemma get_saved_profiles_set (names : list string) (st : store) :
  get_saved_profiles (setValue "profiles/list" (QList names) st) = names.
Proof. unfold get_saved_profiles, setValue. by rewrite lookup_insert_eq. Qed.

Lemma list_remove_sublist (x : string) (l : list string) : sublist (list_remove x l) l.
Proof.
  induction l as [|y l IH]; simpl; [constructor|].
  destruct (String.eqb y x); [by apply sublist_cons | by apply sublist_skip].
Qed.

(** No writer puts a name twice in the name list. *)
Lemma step_names_distinct (st : store) (o : op) :
  NoDup (get_saved_profiles st) → NoDup (get_saved_profiles (step st o)).
Proof.
  intros Hnd. destruct o as [geometry|tab now name|name]; cbn [step].
  - unfold save_settings. by rewrite get_saved_profiles_insert.
  - unfold save_connection_info. destruct (negb _); [done|]. cbv zeta.
    rewrite !get_saved_profiles_insert by apply field_key_not_list.
    case_bool_decide as Hin; cbn [snd].
    + by rewrite !get_saved_profiles_insert by apply field_key_not_list.
    + rewrite get_saved_profiles_set. apply NoDup_app. split; [done|].
      split; [|apply NoDup_singleton].
      intros x Hx Hx'. apply list_elem_of_singleton in Hx'. by subst.
  - unfold delete_connection_profile. cbn [snd].
    set (st' := if bool_decide _ then _ else st).
    assert (Hnd' : NoDup (get_saved_profiles st')).
    { unfold st'. case_bool_decide; [|done]. rewrite get_saved_profiles_set.
      apply (sublist_NoDup _ _ Hnd), list_remove_sublist. }
    unfold get_saved_profiles at 1.
    destruct (under ("profiles/" +:+ name) "profiles/list") eqn:Hu.
    + rewrite lookup_remove_under by done. constructor.
    + rewrite lookup_remove_other by done. exact Hnd'.
Qed.

Lemma exec_names_distinct (ops : list op) (st : store) :
  NoDup (get_saved_profiles st) → NoDup (get_saved_profiles (exec ops st)).
Proof.
  unfold exec. revert st. induction ops as [|o ops IH]; intros st Hnd; [done|].
  simpl. apply IH. by apply step_names_distinct.
Qed.

End SettingsInvariant.

(** ** The profile store: what a saved profile holds *)
Section SettingsWrites.
Import Settings.

Lemma append_inj_r (s a b : string) : s +:+ a = s +:+ b → a = b.
Proof.
  induction s as [|c s IH]; intros H; [exact H|].
  injection H as H. by apply IH.
Qed.

(** After a successful [save_connection_info] the section of the profile
    holds the stripped host, the port, the stripped user and the time of
    the call, and the profile is in the name list. *)
Lemma save_connection_info_writes (tab : connection_tab) (now : string)
    (profile_name : option string) (st : store) :
  (save_connection_info tab now profile_name st).1 = true →
  let section := "profiles/" +:+ name_or_default profile_name in
  let st' := (save_connection_info tab now profile_name st).2 in
  st' !! (section +:+ "/host") = Some (QStr (PyStr.strip (host_edit tab)))
  ∧ st' !! (section +:+ "/port") = Some (QInt (port_spin tab))
  ∧ st' !! (section +:+ "/user") = Some (QStr (PyStr.strip (user_edit tab)))
  ∧ st' !! (section +:+ "/saved_date") = Some (QStr now)
  ∧ name_or_default profile_name ∈ get_saved_profiles st'.
Proof.
  unfold save_connection_info. destruct (negb _); [discriminate|]. intros _.
  cbv zeta.
  assert (Hfield : ∀ a b, a ≠ b →
            ("profiles/" +:+ name_or_default profile_name) +:+ a
            ≠ ("profiles/" +:+ name_or_default profile_name) +:+ b).
  { intros a b Hab H. by apply append_inj_r in H. }
  assert (Hlist : ∀ a,
            "profiles/list"
            ≠ ("profiles/" +:+ name_or_default profile_name) +:+ String "/" a).
  { intros a. apply not_eq_sym, field_key_not_list. }
  case_bool_decide as Hin; cbn [snd].
  - unfold setValue.
    repeat split;
      try (repeat (rewrite lookup_insert_ne by (apply Hfield; discriminate));
           apply lookup_insert_eq).
    exact Hin.
  - rewrite get_saved_profiles_set. unfold setValue.
    repeat split;
      try (rewrite lookup_insert_ne by apply Hlist;
           repeat (rewrite lookup_insert_ne by (apply Hfield; discriminate));
           apply lookup_insert_eq).
    apply elem_of_app. right. by apply list_elem_of_singleton.
Qed.

End SettingsWrites.

Section SettingsClaims.
Import Settings.

(** C9.  [delete_connection_profile] on a name that is in the name list
    (whose names are distinct) returns [True] and leaves a store where the
    name is not in the list and no setting is left at or below
    [profiles/<name>]; on a name that is not in the list and has no setting
    at or below [profiles/<name>] it returns [True] and the store is the one
    it was given. *)
Theorem delete_connection_profile_spec (name : string) (st : store) :
  (name ∈ get_saved_profiles st → NoDup (get_saved_profiles st) →
   (delete_connection_profile name st).1 = true
   ∧ (name ∉ get_saved_profiles (delete_connection_profile name st).2)
   ∧ (∀ key, under ("profiles/" +:+ name) key = true →
             (delete_connection_profile name st).2 !! key = None))
  ∧ (name ∉ get_saved_profiles st →
     (∀ key, under ("profiles/" +:+ name) key = true → st !! key = None) →
     delete_connection_profile name st = (true, st)).
Proof.
  split.
  - intros Hin Hnd. unfold delete_connection_profile.
    rewrite bool_decide_eq_true_2 by done. cbn [fst snd].
    split; [done|]. split.
    + unfold get_saved_profiles at 1.
      destruct (under ("profiles/" +:+ name) "profiles/list") eqn:Hu.
      * rewrite lookup_remove_under by done. apply not_elem_of_nil.
      * rewrite lookup_remove_other by done. unfold setValue.
        rewrite lookup_insert_eq. by apply list_remove_NoDup.
    + intros key Hu. by apply lookup_remove_under.
  - intros Hin Hnone. unfold delete_connection_profile.
    rewrite bool_decide_eq_false_2 by done.
    by rewrite remove_nothing.
Qed.


Lemma delete_connection_profile_spec_witness :
  ("lab" ∉ get_saved_profiles (delete_connection_profile "lab" lab_store).2)
  ∧ delete_connection_profile "office" lab_store = (true, lab_store).
Proof.
  destruct (delete_connection_profile_spec "lab" lab_store) as [Hthere _].
  destruct (delete_connection_profile_spec "office" lab_store) as [_ Hnot].
  assert (Hlist : get_saved_profiles lab_store = ["lab"]) by (vm_compute; reflexivity).
  split.
  - apply Hthere; rewrite Hlist.
    + apply list_elem_of_singleton. reflexivity.
    + apply NoDup_singleton.
  - apply Hnot.
    + rewrite Hlist. intros Hin. apply list_elem_of_singleton in Hin. discriminate.
    + intros key Hu.
      destruct (lab_store !! key) as [v|] eqn:Hk; [|reflexivity].
      exfalso. apply (elem_of_map_to_list lab_store) in Hk.
      set (l := map_to_list lab_store) in Hk. vm_compute in l. subst l.
      repeat match type of Hk with
             | _ ∈ _ :: _ => apply elem_of_cons in Hk as [Hk|Hk];
                              [injection Hk as -> _; vm_compute in Hu; discriminate|]
             end.
      by apply elem_of_nil in Hk.
Defined.

Lemma retype_password_step (pw : string) (o : op) (st : store) :
  step st (retype_password pw o) = step st o.
Proof. destruct o as [g|tab now name|name]; reflexivity. Qed.

Lemma exec_retyped (pw : nat → string) (ops : list op) (st : store) :
  exec (imap (λ i, retype_password (pw i)) ops) st = exec ops st.
Proof.
  unfold exec. revert pw st.
  induction ops as [|o ops IH]; intros pw st; [reflexivity|].
  rewrite imap_cons. simpl. rewrite retype_password_step. apply IH.
Qed.

(** Starting from an empty store, the writers only ever leave the keys of
    [written_key] in it. *)
Lemma step_written_keys (st : store) (o : op) :
  (∀ key, is_Some (st !! key) → written_key key) →
  ∀ key, is_Some (step st o !! key) → written_key key.
Proof.
  intros Hst key [v Hv]. destruct o as [geometry|tab now name|name]; cbn [step] in Hv.
  - unfold save_settings, setValue in Hv.
    apply lookup_insert_Some in Hv as [[<- _]|[_ Hv]]; [by left|by apply Hst].
  - unfold save_connection_info in Hv. destruct (negb _); [by apply Hst|].
    cbv zeta in Hv.
    assert (Hfield : ∀ field, field ∈ profile_fields →
              written_key (("profiles/" +:+ name_or_default name) +:+ field)).
    { intros field Hf. right. right. by exists (name_or_default name), field. }
    case_bool_decide; cbn [snd] in Hv; unfold setValue in Hv;
      repeat (apply lookup_insert_Some in Hv as [[<- _]|[_ Hv]];
              [first [ by right; left
                     | apply Hfield; unfold profile_fields; set_solver ]|]);
      by apply Hst.
  - unfold delete_connection_profile in Hv. cbn [snd] in Hv.
    unfold remove in Hv. apply map_lookup_filter_Some in Hv as [Hv _].
    case_bool_decide; [|by apply Hst].
    unfold setValue in Hv.
    apply lookup_insert_Some in Hv as [[<- _]|[_ Hv]]; [by right; left|by apply Hst].
Qed.

Lemma exec_written_keys (ops : list op) (key : string) :
  is_Some (exec ops ∅ !! key) → written_key key.
Proof.
  unfold exec. revert key. induction ops as [|o ops IH] using rev_ind; intros key.
  - cbn. rewrite lookup_empty. by intros [? ?].
  - rewrite foldl_app. cbn. by apply step_written_keys.
Qed.

(** C8.  [save_connection_info] changes the store at most at the keys
    [host], [port], [user] and [saved_date] of the section of the profile
    and at the key of the name list; [save_settings] changes it at most at
    [window/geometry]; the store reached by any sequence of calls to the
    writers is the same whatever text the password field held at each call:
    nothing in the store comes from the password; and a store built from
    nothing by the writers has no key but the geometry, the name list and
    the [host], [port], [user] and [saved_date] of profile sections. *)
Theorem password_never_written :
  (∀ tab now name st key,
     key ∉ [ ("profiles/" +:+ name_or_default name) +:+ "/host";
             ("profiles/" +:+ name_or_default name) +:+ "/port";
             ("profiles/" +:+ name_or_default name) +:+ "/user";
             ("profiles/" +:+ name_or_default name) +:+ "/saved_date";
             "profiles/list" ] →
     (save_connection_info tab now name st).2 !! key = st !! key)
  ∧ (∀ geometry st key,
       key ≠ "window/geometry" → save_settings geometry st !! key = st !! key)
  ∧ (∀ (pw : nat → string) ops st,
       exec (imap (λ i, retype_password (pw i)) ops) st = exec ops st)
  ∧ (∀ ops key, is_Some (exec ops ∅ !! key) → written_key key).
Proof.
  split; [|split; [|split]].
  - intros tab now name st key Hkey.
    repeat (apply not_elem_of_cons in Hkey as [? Hkey]).
    unfold save_connection_info.
    destruct (negb _); [reflexivity|].
    cbv zeta. case_bool_decide; cbn [snd]; unfold setValue;
      rewrite ?lookup_insert_ne by congruence;
      reflexivity.
  - intros geometry st key Hkey. unfold save_settings, setValue.
    by rewrite lookup_insert_ne.
  - apply exec_retyped.
  - apply exec_written_keys.
Qed.

Lemma password_never_written_witness :
  (save_connection_info lab_tab "2024-05-02 09:30:00" (Some "lab") ∅).2 !! "connection/password"
  = (∅ : store) !! "connection/password"
  ∧ save_settings "geometry" lab_store !! "profiles/list" = lab_store !! "profiles/list".
Proof.
  destruct password_never_written as (Hsave & Hgeo & _).
  split.
  - apply Hsave. vm_compute.
    intros Hin. repeat (apply elem_of_cons in Hin as [Hin|Hin]; [discriminate|]).
    by apply elem_of_nil in Hin.
  - apply Hgeo. discriminate.
Defined.

End SettingsClaims.

(** ** The terminal history *)
Section HistoryProps.
Import History.

Lemma take_20_NoDup (l : list string) : NoDup l → NoDup (take 20 l).
Proof.
  intros H. rewrite <- (take_drop 20 l) in H.
  by apply NoDup_app in H as [H _].
Qed.

Lemma add_to_command_history_keeps (command : string) (h : history) :
  NoDup (cmd_history_list h) ∧ (length (cmd_history_list h) ≤ 20)%nat →
  NoDup (cmd_history_list (add_to_command_history command h))
  ∧ (length (cmd_history_list (add_to_command_history command h)) ≤ 20)%nat.
Proof.
  intros [Hnd Hlen]. unfold add_to_command_history.
  case_bool_decide as Hin; [done|].
  assert (Hnd' : NoDup (command :: cmd_history_list h)) by by constructor.
  destruct (Nat.ltb_spec 20 (length (command :: cmd_history_list h))) as [Hlt|Hle];
    cbn [cmd_history_list].
  - split; [by apply take_20_NoDup|]. rewrite length_take. lia.
  - done.
Qed.

Lemma step_keeps (h : history) (o : op) :
  NoDup (cmd_history_list h) ∧ (length (cmd_history_list h) ≤ 20)%nat →
  NoDup (cmd_history_list (step h o))
  ∧ (length (cmd_history_list (step h o)) ≤ 20)%nat.
Proof.
  destruct o as [command|]; simpl.
  - apply add_to_command_history_keeps.
  - intros _. split; [constructor | simpl; lia].
Qed.

Lemma add_new_first (command : string) (h : history) :
  command ∉ cmd_history_list h →
  head (cmd_history_list (add_to_command_history command h)) = Some command.
Proof.
  intros Hin. unfold add_to_command_history.
  rewrite bool_decide_eq_false_2 by done.
  by destruct (_ <? _)%nat.
Qed.

(** C10.  Whatever calls of [add_to_command_history] and
    [clear_command_history] the window has made since it was built, the
    history list has no duplicates and at most 20 entries; from there, adding
    a command that is in the list changes nothing, and adding one that is not
    puts it at the front. *)
Theorem command_history_invariant (ops : list op) (command : string) :
  let h := foldl step initial ops in
  NoDup (cmd_history_list h)
  ∧ (length (cmd_history_list h) ≤ 20)%nat
  ∧ (command ∈ cmd_history_list h → add_to_command_history command h = h)
  ∧ (command ∉ cmd_history_list h →
     head (cmd_history_list (add_to_command_history command h)) = Some command)
  ∧ cmd_history_list (clear_command_history h) = [].
Proof.
  intros h.
  assert (Hinv : NoDup (cmd_history_list h) ∧ (length (cmd_history_list h) ≤ 20)%nat).
  { subst h. induction ops as [|o ops IH] using rev_ind.
    - split; [constructor | simpl; lia].
    - rewrite foldl_app. simpl. by apply step_keeps. }
  destruct Hinv as [Hnd Hlen].
  repeat split; try done.
  - intros Hin. unfold add_to_command_history.
    by rewrite bool_decide_eq_true_2.
  - apply add_new_first.
Qed.

Lemma command_history_invariant_witness :
  add_to_command_history "help" (foldl step initial [Add "help"; Add "system ident"])
  = foldl step initial [Add "help"; Add "system ident"].
Proof.
  apply (command_history_invariant [Add "help"; Add "system ident"] "help").
  vm_compute. apply list_elem_of_In. simpl. auto.
Defined.

End HistoryProps.

(** ** Words and lines *)
Section TextProps.
Import PyText.

Lemma append_nil_r (s : string) : s +:+ "" = s.
Proof.
  induction s as [|c s IH]; [reflexivity|].
  change (String c (s +:+ "") = String c s). by rewrite IH.
Qed.

Lemma append_assoc (a b c : string) : (a +:+ b) +:+ c = a +:+ (b +:+ c).
Proof.
  induction a as [|x a IH]; [reflexivity|].
  change (String x ((a +:+ b) +:+ c) = String x (a +:+ (b +:+ c))). by rewrite IH.
Qed.

Lemma length_append (a b : string) :
  String.length (a +:+ b) = (String.length a + String.length b)%nat.
Proof.
  induction a as [|x a IH]; [reflexivity|].
  change (S (String.length (a +:+ b)) = S (String.length a + String.length b)).
  by rewrite IH.
Qed.

Lemma rev_app_rev_app (w t u : string) :
  String.rev_app (String.rev_app w t) u = String.rev_app t (w +:+ u).
Proof. revert t. induction w as [|c w IH]; intros t; [reflexivity|]. cbn. by rewrite IH. Qed.

Lemma rev_rev_app (w : string) : String.rev (String.rev_app w "") = w.
Proof. unfold String.rev. rewrite rev_app_rev_app. cbn. apply append_nil_r. Qed.

Lemma rev_app_not_empty (w t : string) : t ≠ "" → String.rev_app w t ≠ "".
Proof. revert t. induction w as [|c w IH]; intros t Ht; [done|]. cbn. by apply IH. Qed.

Lemma spaceless_rev_app (w t : string) :
  spaceless w = true → spaceless t = true → spaceless (String.rev_app w t) = true.
Proof.
  revert t. induction w as [|c w IH]; intros t Hw Ht; [done|].
  cbn in Hw. apply andb_true_iff in Hw as [Hc Hw].
  cbn. apply IH; [done|]. cbn. by rewrite Hc.
Qed.

(** Reading a stretch without white space only grows the current word. *)
Lemma words_acc_word (w cur s : string) :
  spaceless w = true →
  words_acc cur (w +:+ s) = words_acc (String.rev_app w cur) s.
Proof.
  revert cur. induction w as [|c w IH]; intros cur Hw; [reflexivity|].
  cbn in Hw. apply andb_true_iff in Hw as [Hc Hw].
  change (words_acc cur (String c (w +:+ s))
          = words_acc (String.rev_app w (String c cur)) s).
  cbn [words_acc]. apply negb_true_iff in Hc. rewrite Hc. by apply IH.
Qed.

Lemma words_acc_is_word (cur s : string) :
  spaceless cur = true → Forall is_word (words_acc cur s).
Proof.
  revert cur. induction s as [|c s IH]; intros cur Hcur; cbn.
  - destruct cur as [|x cur]; [constructor|]. apply Forall_singleton. split.
    + unfold String.rev. cbn. by apply rev_app_not_empty.
    + by apply spaceless_rev_app.
  - destruct (PyStr.is_space c) eqn:Hc.
    + destruct cur as [|x cur]; [by apply IH|]. constructor; [|by apply IH]. split.
      * unfold String.rev. cbn. by apply rev_app_not_empty.
      * by apply spaceless_rev_app.
    + apply IH. cbn. by rewrite Hc.
Qed.

Lemma words_is_word (s : string) : Forall is_word (words s).
Proof. by apply words_acc_is_word. Qed.

Lemma join_cons (sep x y : string) (l : list string) :
  join sep (x :: y :: l) = x +:+ sep +:+ join sep (y :: l).
Proof. reflexivity. Qed.

Lemma words_acc_space (cur s : string) :
  cur ≠ "" → words_acc cur (" " +:+ s) = String.rev cur :: words_acc "" s.
Proof. intros H. by destruct cur. Qed.

(** [" ".join(l).split()] gives [l] back when [l] is made of words. *)
Lemma words_join (ws : list string) :
  Forall is_word ws → words (join " " ws) = ws.
Proof.
  induction 1 as [|w ws [Hne Hw] Hws IH]; [reflexivity|].
  assert (Hr : String.rev_app w "" ≠ "").
  { destruct w as [|c w]; [done|]. cbn. by apply rev_app_not_empty. }
  destruct ws as [|w2 ws].
  - cbn [join]. unfold words.
    replace (words_acc "" w) with (words_acc "" (w +:+ "")) by by rewrite append_nil_r.
    rewrite words_acc_word by done. cbn [words_acc].
    destruct (String.rev_app w "") eqn:E; [done|]. rewrite <- E. by rewrite rev_rev_app.
  - rewrite join_cons. unfold words. rewrite words_acc_word by done.
    rewrite words_acc_space by done. rewrite rev_rev_app.
    f_equal. exact IH.
Qed.

Lemma join_snoc (sep : string) (l : list string) (w : string) :
  l ≠ [] → join sep (l ++ [w]) = join sep l +:+ sep +:+ w.
Proof.
  induction l as [|x l IH]; [done|]. intros _.
  destruct l as [|y l]; [reflexivity|].
  change (join sep ((x :: y :: l) ++ [w])) with (x +:+ sep +:+ join sep ((y :: l) ++ [w])).
  rewrite IH by done. rewrite join_cons. by rewrite !append_assoc.
Qed.

Lemma blank_lstrip (s : string) : blank s = true ↔ PyStr.lstrip s = "".
Proof.
  induction s as [|c s IH]; [done|]. cbn.
  destruct (PyStr.is_space c); [exact IH|]. split; done.
Qed.

Lemma rstrip_not_empty (c : ascii) (s : string) :
  PyStr.is_space c = false → PyStr.rstrip (String c s) ≠ "".
Proof. intros Hc. cbn. rewrite Hc. by destruct (PyStr.rstrip s). Qed.

Lemma lstrip_head (s : string) (c : ascii) (t : string) :
  PyStr.lstrip s = String c t → PyStr.is_space c = false.
Proof.
  induction s as [|x s IH]; [done|]. cbn.
  destruct (PyStr.is_space x) eqn:Hx; [exact IH|]. intros [= <- _]. exact Hx.
Qed.

(** A string is blank exactly when stripping it leaves nothing. *)
Lemma blank_strip (s : string) : blank s = true ↔ PyStr.strip s = "".
Proof.
  rewrite blank_lstrip. unfold PyStr.strip. split.
  - by intros ->.
  - destruct (PyStr.lstrip s) as [|c t] eqn:E; [done|].
    intros H. by apply rstrip_not_empty in H; [|eapply lstrip_head].
Qed.

Lemma rstrip_cons (c : ascii) (s : string) :
  PyStr.rstrip (String c s)
  = match PyStr.rstrip s with
    | "" => if PyStr.is_space c then "" else String c ""
    | t => String c t
    end.
Proof. reflexivity. Qed.

Lemma rstrip_idem (s : string) : PyStr.rstrip (PyStr.rstrip s) = PyStr.rstrip s.
Proof.
  induction s as [|c s IH]; [reflexivity|]. rewrite rstrip_cons.
  destruct (PyStr.rstrip s) as [|d t] eqn:E.
  - destruct (PyStr.is_space c) eqn:Hc; [reflexivity|].
    rewrite rstrip_cons. cbn [PyStr.rstrip]. by rewrite Hc.
  - rewrite rstrip_cons, IH. reflexivity.
Qed.

Lemma lstrip_fixed (c : ascii) (s : string) :
  PyStr.is_space c = false → PyStr.lstrip (String c s) = String c s.
Proof. intros Hc. cbn. by rewrite Hc. Qed.

(** Stripping twice is stripping once. *)
Lemma strip_idem (s : string) : PyStr.strip (PyStr.strip s) = PyStr.strip s.
Proof.
  unfold PyStr.strip.
  destruct (PyStr.lstrip s) as [|c t] eqn:E; [reflexivity|].
  pose proof (lstrip_head _ _ _ E) as Hc.
  assert (H : ∃ u, PyStr.rstrip (String c t) = String c u).
  { cbn [PyStr.rstrip]. destruct (PyStr.rstrip t); [|eauto]. rewrite Hc. eauto. }
  destruct H as [u Hu]. rewrite Hu, lstrip_fixed by done.
  rewrite <- Hu. apply rstrip_idem.
Qed.

Lemma nonblank_strip (s : string) :
  Dispatcher.nonblank (PyStr.strip s) = Dispatcher.nonblank s.
Proof. unfold Dispatcher.nonblank. by rewrite strip_idem. Qed.

Lemma words_acc_not_nil (cur s : string) : cur ≠ "" → words_acc cur s ≠ [].
Proof.
  revert cur. induction s as [|c s IH]; intros cur Hcur; cbn.
  - by destruct cur.
  - destruct (PyStr.is_space c); [by destruct cur | by apply IH].
Qed.

(** A string is blank exactly when it has no word. *)
Lemma blank_words (s : string) : blank s = true ↔ words s = [].
Proof.
  unfold words. induction s as [|c s IH]; [done|]. cbn.
  destruct (PyStr.is_space c); [exact IH|]. split; [done|].
  intros H. by apply words_acc_not_nil in H.
Qed.

Lemma nonblank_words (s : string) : Dispatcher.nonblank s = true ↔ words s ≠ [].
Proof.
  rewrite <- blank_words, blank_strip.
  unfold Dispatcher.nonblank, PyStr.truthy.
  destruct (PyStr.strip s); split; done.
Qed.

End TextProps.

(** ** The results view: long commands *)
Section WrapProps.
Import PyText Wrap.

(** The words of the lines that [fill] hands back are the words of the
    closed lines, then those of the open line, then those still to come. *)
Lemma fill_words (ws fl cl : list string) (n : nat) :
  Forall is_word ws → Forall is_word cl →
  concat (map words (fill ws fl cl n)) = concat (map words fl) ++ cl ++ ws.
Proof.
  revert fl cl n. induction ws as [|w ws IH]; intros fl cl n Hws Hcl.
  - cbn [fill]. rewrite app_nil_r. destruct cl as [|c cl]; [by rewrite app_nil_r|].
    rewrite map_app, concat_app. cbn [map concat]. by rewrite app_nil_r, words_join.
  - apply Forall_cons in Hws as [Hw Hws]. cbn [fill].
    destruct (_ && _).
    + rewrite IH by (done || by apply Forall_singleton).
      rewrite map_app, concat_app. cbn [map concat].
      rewrite app_nil_r, words_join by done. by rewrite <- app_assoc.
    + rewrite IH by (done || by apply Forall_app; split; [|apply Forall_singleton]).
      by rewrite <- (app_assoc cl).
Qed.

(** Every line that [fill] hands back is at most 80 characters long or is
    one of the words, provided the closed lines are so and the count kept
    for the open line is not below its length. *)
Lemma fill_bound (W ws fl cl : list string) (n : nat) :
  let short line := (len line ≤ 80)%nat ∨ line ∈ W in
  (∀ w, w ∈ ws → w ∈ W) →
  Forall short fl →
  (cl ≠ [] → short (join " " cl) ∧ (len (join " " cl) ≤ n)%nat) →
  Forall short (fill ws fl cl n).
Proof.
  intros short. revert fl cl n. induction ws as [|w ws IH]; intros fl cl n HW Hfl Hcl.
  - cbn [fill]. destruct cl as [|c cl]; [done|].
    apply Forall_app. split; [done|]. apply Forall_singleton. by apply Hcl.
  - assert (Hw : w ∈ W) by (apply HW; left).
    assert (HW' : ∀ w', w' ∈ ws → w' ∈ W) by (intros w' H'; apply HW; by right).
    cbn [fill]. destruct (_ && _) eqn:Hc.
    + apply andb_true_iff in Hc as [_ Hne].
      apply IH; [done| |].
      * apply Forall_app. split; [done|]. apply Forall_singleton.
        apply Hcl. by destruct cl.
      * intros _. cbn [join]. split; [by right | done].
    + apply IH; [done|done|]. intros _.
      destruct cl as [|c cl].
      * cbn [app join]. split; [by right | lia].
      * rewrite andb_true_r in Hc. apply Nat.ltb_ge in Hc.
        destruct (Hcl ltac:(done)) as [_ Hn].
        rewrite join_snoc by done. unfold len in *.
        rewrite !length_append. cbn [String.length].
        change ((c :: cl) ++ [w]) with (c :: (cl ++ [w])). cbv iota.
        split; [left|]; rewrite ?length_append; cbn [String.length]; lia.
Qed.

(** The loop that glues the lines is a [join]. *)
Lemma fold_left_join (sep first : string) (others : list string) :
  fold_left (λ result line, result +:+ sep +:+ line) others first
  = join sep (first :: others).
Proof.
  revert first. induction others as [|y l IH]; intros first; [reflexivity|].
  cbn [fold_left]. rewrite IH, join_cons.
  destruct l as [|z l]; [reflexivity|].
  rewrite !join_cons. by rewrite !append_assoc.
Qed.

Lemma formatted_lines_words (command : string) :
  concat (map words (formatted_lines command)) = words command.
Proof.
  unfold formatted_lines. rewrite fill_words; [done|apply words_is_word|constructor].
Qed.

Lemma formatted_lines_nil (command : string) :
  formatted_lines command = [] ↔ Dispatcher.nonblank command = false.
Proof.
  rewrite <- not_true_iff_false, nonblank_words. split.
  - intros H Hw. apply Hw. by rewrite <- formatted_lines_words, H.
  - intros H. unfold formatted_lines.
    destruct (words command); [reflexivity|]. by destruct H.
Qed.

(** X1.  A command of more than 80 characters comes back from
    [format_long_command] as its lines glued with the continuation mark, and
    the words of these lines, read in order, are the words of the command:
    the wrapping loses no word, adds none and moves none. *)
Theorem format_long_command_keeps_words (command result : string) :
  (80 < len command)%nat →
  format_long_command command = Some result →
  result = join continuation (formatted_lines command)
  ∧ concat (map words (formatted_lines command)) = words command.
Proof.
  intros Hlen. unfold format_long_command.
  apply Nat.leb_gt in Hlen. rewrite Hlen.
  destruct (formatted_lines command) as [|first others] eqn:E; [done|].
  intros [= <-]. split; [apply fold_left_join|].
  rewrite <- E. apply formatted_lines_words.
Qed.

(** X2.  Every line made by [format_long_command] is at most 80 characters
    long, unless it is a single word of the command, which is never cut. *)
Theorem formatted_lines_bound (command line : string) :
  line ∈ formatted_lines command →
  (len line ≤ 80)%nat ∨ line ∈ words command.
Proof.
  intros Hin.
  pose proof (fill_bound (words command) (words command) [] [] 0) as H.
  cbv zeta in H. eapply Forall_forall in H; [exact H| | | |exact Hin]; done.
Qed.

(** X3.  [format_long_command] raises (the [IndexError] of
    [formatted_lines[0]]) exactly on the commands of more than 80 characters
    that are all white space. *)
Theorem format_long_command_raises (command : string) :
  format_long_command command = None
  ↔ (80 < len command)%nat ∧ Dispatcher.nonblank command = false.
Proof.
  unfold format_long_command.
  destruct (Nat.leb_spec (len command) 80) as [Hle|Hlt].
  - split; [done|]. intros [H _]. lia.
  - rewrite <- formatted_lines_nil.
    destruct (formatted_lines command); split; try done.
    + intros [_ H]. done.
Qed.

End WrapProps.

Lemma format_long_command_keeps_words_witness :
  PyText.join Wrap.continuation (Wrap.formatted_lines Wrap.long_command)
  = PyText.join Wrap.continuation (Wrap.formatted_lines Wrap.long_command)
  ∧ concat (map PyText.words (Wrap.formatted_lines Wrap.long_command))
    = PyText.words Wrap.long_command.
Proof.
  apply (format_long_command_keeps_words Wrap.long_command).
  - vm_compute. lia.
  - vm_compute. reflexivity.
Defined.

Lemma formatted_lines_bound_witness :
  (PyText.len "comment=nightly update=1 mac=0" ≤ 80)%nat
  ∨ "comment=nightly update=1 mac=0" ∈ PyText.words Wrap.long_command.
Proof.
  apply (formatted_lines_bound Wrap.long_command).
  apply list_elem_of_In. vm_compute. auto.
Defined.

(** ** The range of the progress value *)
Section ProgressRange.
Import Rounding.
Import Dispatcher.

Lemma progress_nonneg a N p :
  1 <= a <= N -> N < 2 ^ 53 -> progress_value a N = Some p -> 0 <= p.
Proof.
  intros Ha HN Hp.
  destruct (progress_steps a N Ha HN) as (m1 & e1 & m2 & e2 & _ & _ & _ & _ & He2 & Hq).
  rewrite Hp in Hq. injection Hq as ->.
  apply Z.div_pos; [lia|]. apply Z.pow_pos_nonneg; lia.
Qed.

(** The two roundings never lift the value above the integer part of
    [100 * a / N]. *)
Lemma progress_le_floor a N p :
  1 <= a <= N -> N < 2 ^ 45 -> progress_value a N = Some p -> p <= 100 * a / N.
Proof.
  intros Ha HN Hpv.
  assert (HN53 : N < 2 ^ 53).
  { assert (2 ^ 45 < 2 ^ 53) by (apply Z.pow_lt_mono_r; lia). lia. }
  destruct (progress_steps a N Ha HN53)
    as (m1 & e1 & m2 & e2 & _ & Hr1 & _ & Hr2 & He2 & Hp).
  rewrite Hpv in Hp. injection Hp as Hp.
  pose proof (rounds_to_rel _ _ _ Hr1) as [Hl1 Hu1].
  pose proof (rounds_to_rel _ _ _ Hr2) as [Hl2 Hu2].
  pose proof (floor_F2R (Zpos m2) (- e2) ltac:(lia)) as [Hf1 Hf2].
  rewrite Z.opp_involutive in Hf1, Hf2. rewrite <- Hp in Hf1, Hf2. clear Hp Hpv.
  set (V1 := F2R (Zpos m1) e1) in *. set (V2 := F2R (Zpos m2) e2) in *.
  clearbody V1 V2.
  pose proof (Z_div_mod (100 * a) N ltac:(lia)) as Hdm.
  unfold Z.div. destruct (Z.div_eucl (100 * a) N) as [k r].
  destruct Hdm as [Hk [Hr0 HrN]].
  assert (Hk0 : 0 <= k <= 100) by nia.
  change (2 ^ 45) with 35184372088832 in HN.
  set (iN := (/ IZR N)%R).
  assert (HNr : (1 <= IZR N < 35184372088832)%R)
    by (split; [apply IZR_le|apply IZR_lt]; lia).
  assert (HiN : (IZR N * iN = 1)%R) by (unfold iN; field; lra).
  assert (HiN0 : (0 < iN)%R) by (unfold iN; apply Rinv_0_lt_compat; lra).
  assert (HiN1 : (1 < 35184372088832 * iN)%R) by nra.
  assert (HX : (100 * (IZR a / IZR N) = IZR k + IZR r * iN)%R).
  { apply (f_equal IZR) in Hk. rewrite plus_IZR, !mult_IZR in Hk.
    unfold Rdiv. fold iN.
    replace (100 * (IZR a * iN))%R with ((100 * IZR a) * iN)%R by ring.
    rewrite Hk. replace ((IZR N * IZR k + IZR r) * iN)%R
      with (IZR k * (IZR N * iN) + IZR r * iN)%R by ring.
    rewrite HiN. ring. }
  set (X := (IZR a / IZR N)%R) in *. clearbody X.
  assert (HT1 : (IZR r * iN <= 1 - iN)%R).
  { assert (Hr1' : r <= N - 1) by lia. apply IZR_le in Hr1'.
    rewrite minus_IZR in Hr1'. nra. }
  assert (HT0 : (0 <= IZR r * iN)%R).
  { apply IZR_le in Hr0. nra. }
  set (T := (IZR r * iN)%R) in *.
  destruct Hk0 as [Hk0 Hk100]. apply IZR_le in Hk0, Hk100.
  assert (Hup : (V2 < IZR k + 1)%R) by (clearbody T; lra).
  assert (H : (IZR p < IZR (k + 1))%R) by (rewrite plus_IZR; lra).
  apply lt_IZR in H. lia.
Qed.

(** X4.  After [completed] commands out of [total] (fewer than [2^45]) the
    progress value lies between 0 and 100, and it is 100 exactly when the
    last command has completed. *)
Theorem progress_hundred_at_end (completed total p : Z) :
  1 <= completed <= total -> total < 2 ^ 45 ->
  progress_value completed total = Some p ->
  0 <= p <= 100 /\ (p = 100 <-> completed = total).
Proof.
  intros Ha HN Hp.
  assert (HN53 : total < 2 ^ 53).
  { assert (2 ^ 45 < 2 ^ 53) by (apply Z.pow_lt_mono_r; lia). lia. }
  pose proof (progress_nonneg _ _ _ Ha HN53 Hp) as H0.
  pose proof (progress_le_floor _ _ _ Ha HN Hp) as Hle.
  assert (Hdiv : 100 * completed / total <= 100).
  { apply Z.div_le_upper_bound; lia. }
  split; [lia|]. split.
  - intros ->. destruct (Z.eq_dec completed total) as [|Hne]; [assumption|exfalso].
    assert (Hlt : 100 * completed / total < 100).
    { apply Z.div_lt_upper_bound; lia. }
    lia.
  - intros ->. rewrite progress_full in Hp by lia. congruence.
Qed.

End ProgressRange.

Lemma progress_hundred_at_end_witness :
  0 <= 66 <= 100 /\ (66 = 100 <-> 2 = 3).
Proof.
  apply (progress_hundred_at_end 2 3 66).
  - lia.
  - reflexivity.
  - reflexivity.
Defined.

(** ** Batches with blank entries *)
Section DispatcherBlanks.
Import Dispatcher.
Context {session : Type}.
Variable send_command : session → string → session * outcome.

Abbreviation blocks :=
  (flat_map (λ '(c, o, b, p), [Send c; CommandExecuted c o b; Progress p; Msleep 100])).

(** The trace of any batch: four events per entry that is not blank, with
    the progress value of the place of that entry. *)
Lemma run_from_blocks (total : nat) (commands : list string) (i : nat) (s : session) :
  (i + length commands ≤ total)%nat → Z.of_nat total < 2 ^ 53 →
  ∃ steps : list (string * string * bool * Z),
    run_from send_command total i commands s = blocks steps
    ∧ map (λ st, st.1.1.1) steps = List.filter nonblank commands
    ∧ Forall (λ p, ∃ k, (i < k ≤ i + length commands)%nat
                 ∧ progress_value (Z.of_nat k) (Z.of_nat total) = Some p)
        (map snd steps)
    ∧ (∀ j1 j2 p1 p2,
         (j1 ≤ j2)%nat → map snd steps !! j1 = Some p1 →
         map snd steps !! j2 = Some p2 → p1 ≤ p2).
Proof.
  revert i s. induction commands as [|command rest IH]; intros i s Hi Ht.
  - exists []. repeat split; [constructor|]. intros j1 j2 p1 p2 _ H. cbn [map] in H. by rewrite lookup_nil in H.
  - cbn [length] in Hi. cbn [List.filter]. destruct (nonblank command) eqn:Hnb.
    + destruct (run_from_cons send_command total i command rest s Hnb ltac:(lia) Ht)
        as (p & Hp & ->).
      destruct (attempt_events send_command s command) as (o & b & ->).
      destruct (IH (S i) (send_command s command).1 ltac:(lia) Ht)
        as (steps & -> & Hcmds & Hprog & Hsorted).
      exists ((command, o, b, p) :: steps). split; [reflexivity|].
      split; [cbn [map]; by rewrite Hcmds|]. cbn [map snd]. split.
      * constructor.
        -- exists (i + 1)%nat. split; [cbn [length]; lia|exact Hp].
        -- eapply Forall_impl; [exact Hprog|]. intros q (k & Hk & Hq).
           exists k. split; [cbn [length]; lia|exact Hq].
      * intros [|j1] [|j2] p1 p2 Hj H1 H2; cbn [lookup list_lookup] in H1, H2.
        -- injection H1 as <-. injection H2 as <-. lia.
        -- injection H1 as <-.
           apply (proj1 (Forall_lookup _ _) Hprog) in H2 as (k & Hk & Hq).
           apply (progress_mono (Z.of_nat (i + 1)) (Z.of_nat k) (Z.of_nat total));
             (assumption || lia).
        -- lia.
        -- apply (Hsorted j1 j2); (assumption || lia).
    + rewrite run_from_skip by done.
      destruct (IH (S i) s ltac:(lia) Ht) as (steps & -> & Hcmds & Hprog & Hsorted).
      exists steps. split; [reflexivity|]. split; [exact Hcmds|]. split; [|exact Hsorted].
      eapply Forall_impl; [exact Hprog|]. intros q (k & Hk & Hq).
      exists k. split; [cbn [length]; lia|exact Hq].
Qed.

Lemma blocks_no_uncaught (steps : list (string * string * bool * Z)) :
  Uncaught ∉ blocks steps.
Proof.
  induction steps as [|[[[c o] b] p] steps IH]; [apply not_elem_of_nil|].
  cbn. rewrite !not_elem_of_cons. by repeat split.
Qed.

(** X5.  On any batch (that a machine can hold), blank entries included,
    the dispatcher emits a per-command event for the entries that are not
    blank, in their order, and for no other; no exception leaves [run]; and
    the progress values lie between 0 and 100 and never go down. *)
Theorem dispatcher_skips_blanks (commands : list string) (s : session) :
  Z.of_nat (length commands) < 2 ^ 53 →
  (executed (run send_command commands s)).*1.*1 = List.filter nonblank commands
  ∧ (Uncaught ∉ run send_command commands s)
  ∧ length (progress_values (run send_command commands s))
    = length (List.filter nonblank commands)
  ∧ Forall (λ p, 0 ≤ p ≤ 100) (progress_values (run send_command commands s))
  ∧ (∀ j1 j2 p1 p2,
       (j1 ≤ j2)%nat →
       progress_values (run send_command commands s) !! j1 = Some p1 →
       progress_values (run send_command commands s) !! j2 = Some p2 →
       p1 ≤ p2).
Proof.
  intros Ht. unfold run.
  destruct (run_from_blocks (length commands) commands 0 s ltac:(lia) Ht)
    as (steps & -> & Hcmds & Hprog & Hsorted).
  rewrite executed_blocks, progress_values_blocks.
  split; [|split; [apply blocks_no_uncaught|split; [|split; [|exact Hsorted]]]].
  - rewrite <- Hcmds. clear. induction steps as [|[[[c o] b] p] steps IH]; [reflexivity|].
    cbn. by rewrite IH.
  - by rewrite <- Hcmds, !length_map.
  - eapply Forall_impl; [exact Hprog|]. intros p (k & Hk & Hp). split.
    + apply (progress_nonneg (Z.of_nat k) (Z.of_nat (length commands))); (assumption || lia).
    + apply (progress_mono (Z.of_nat k) (Z.of_nat (length commands))
               (Z.of_nat (length commands))); try (assumption || lia).
      apply progress_full. lia.
Qed.

(** X6.  Every per-command event of the dispatcher carries a command that
    is not blank, so that the slot [on_command_executed], which formats it
    with [format_long_command], never meets the [IndexError]. *)
Theorem executed_commands_format (commands : list string) (s : session)
    (command output : string) (success : bool) :
  (command, output, success) ∈ executed (run send_command commands s) →
  nonblank command = true ∧ is_Some (Wrap.format_long_command command).
Proof.
  assert (Hgen : ∀ total i s,
            (command, output, success)
              ∈ executed (run_from send_command total i commands s) →
            nonblank command = true).
  { intros total. induction commands as [|c rest IH]; intros i s' Hin.
    - by apply elem_of_nil in Hin.
    - cbn [run_from] in Hin. destruct (nonblank c) eqn:Hnb; [|by eapply IH].
      destruct (attempt_events send_command s' c) as (o & b & He).
      destruct (attempt send_command s' c) as [evs s''] eqn:Ha. cbn [fst] in He. subst evs.
      destruct (progress_value _ _) as [p|].
      + cbn in Hin. apply elem_of_cons in Hin as [[= -> -> ->]|Hin]; [exact Hnb|].
        by eapply IH.
      + cbn in Hin. apply elem_of_cons in Hin as [[= -> -> ->]|Hin]; [exact Hnb|].
        by apply elem_of_nil in Hin. }
  intros Hin. apply Hgen in Hin. split; [exact Hin|].
  unfold Wrap.format_long_command. destruct (_ <=? _)%nat; [by eexists|].
  destruct (Wrap.formatted_lines command) eqn:E; [|by eexists].
  apply formatted_lines_nil in E. congruence.
Qed.

End DispatcherBlanks.

Lemma dispatcher_skips_blanks_witness :
  (Dispatcher.executed
     (Dispatcher.run Dispatcher.appliance ["help"; "  "; "system ident"] tt)).*1.*1
  = List.filter Dispatcher.nonblank ["help"; "  "; "system ident"].
Proof.
  apply (dispatcher_skips_blanks Dispatcher.appliance ["help"; "  "; "system ident"] tt).
  reflexivity.
Defined.

Lemma executed_commands_format_witness :
  Dispatcher.nonblank "bogus_cmd" = true
  ∧ is_Some (Wrap.format_long_command "bogus_cmd").
Proof.
  apply (executed_commands_format Dispatcher.appliance
           ["config network interface show"; "bogus_cmd"] tt "bogus_cmd"
           "200 code=00a00300 msg=Command not found | Command execution failed." true).
  apply list_elem_of_In. vm_compute. auto.
Defined.

(** ** From the editor and from the terminal to the session *)
Section BatchDispatch.
Import Dispatcher.
Context {session : Type}.
Variable send_command : session → string → session * outcome.

Lemma filter_commands_stripped (text command : string) :
  command ∈ Batch.filter_commands text →
  PyStr.strip command = command ∧ nonblank command = true.
Proof.
  unfold Batch.filter_commands. destruct (PyStr.truthy (PyStr.strip text)).
  - intros Hin. apply list_elem_of_fmap in Hin as (cmd & -> & Hin).
    apply list_elem_of_In, filter_In in Hin as [_ Hkeep].
    unfold Batch.keep in Hkeep. apply andb_true_iff in Hkeep as [Ht _].
    split; [apply strip_idem|]. by rewrite nonblank_strip.
  - intros Hin. by apply elem_of_nil in Hin.
Qed.

Lemma filter_all (commands : list string) :
  Forall (λ c, nonblank c = true) commands → List.filter nonblank commands = commands.
Proof.
  induction 1 as [|c l Hc Hl IH]; [reflexivity|]. cbn [List.filter]. by rewrite Hc, IH.
Qed.

Lemma run_last_progress (commands : list string) (s : session) :
  commands ≠ [] → Forall (λ c, nonblank c = true) commands →
  Z.of_nat (length commands) < 2 ^ 53 →
  last (progress_values (run send_command commands s)) = Some 100.
Proof.
  intros Hne Hnb Ht. unfold run.
  destruct (run_from_shape send_command (length commands) commands 0 s Hnb
              ltac:(lia) Ht) as (steps & -> & Hcmds & Hprog).
  rewrite progress_values_blocks.
  assert (Hlen : length steps = length commands) by (by rewrite <- Hcmds, length_map).
  assert (Hn : (0 < length commands)%nat) by (destruct commands; [done|cbn; lia]).
  rewrite last_lookup, length_map, Hlen, list_lookup_fmap.
  destruct (steps !! Nat.pred (length commands)) as [st|] eqn:Hst.
  - apply Hprog in Hst.
    replace (0 + Nat.pred (length commands) + 1)%nat with (length commands) in Hst by lia.
    rewrite progress_full in Hst by lia. cbn. congruence.
  - apply lookup_ge_None in Hst. lia.
Qed.

(** X7.  When [execute_commands] starts a dispatcher, the batch it hands
    over is not empty and every entry is a stripped line that is neither
    blank nor a comment; the dispatcher then sends exactly these commands,
    in order, emits one event for each, and ends on the progress value
    100. *)
Theorem execute_commands_dispatch (is_connected reply_yes : bool) (text : string)
    (commands : list string) (s : session) :
  Batch.execute_commands is_connected text reply_yes = Batch.Dispatched commands →
  Z.of_nat (length commands) < 2 ^ 53 →
  is_connected = true
  ∧ commands ≠ []
  ∧ Forall (λ c, PyStr.strip c = c ∧ nonblank c = true
                 ∧ PyStr.startswith "#" c = false) commands
  ∧ sent (run send_command commands s) = commands
  ∧ (executed (run send_command commands s)).*1.*1 = commands
  ∧ last (progress_values (run send_command commands s)) = Some 100.
Proof.
  intros Hex Ht. unfold Batch.execute_commands in Hex.
  destruct is_connected; [|discriminate]. cbn [negb] in Hex.
  destruct (Batch.filter_commands text) as [|c l] eqn:Hf; [discriminate|].
  destruct reply_yes; [|discriminate]. injection Hex as <-.
  assert (Hall : Forall (λ c, PyStr.strip c = c ∧ nonblank c = true
                              ∧ PyStr.startswith "#" c = false) (c :: l)).
  { apply Forall_forall. intros x Hx. rewrite <- Hf in Hx.
    destruct (filter_commands_stripped _ _ Hx) as [H1 H2].
    destruct (filter_commands_kept _ _ Hx) as [_ H3]. done. }
  assert (Hnb : Forall (λ c, nonblank c = true) (c :: l)).
  { eapply Forall_impl; [exact Hall|]. by intros x (_ & H & _). }
  split; [reflexivity|]. split; [done|]. split; [exact Hall|]. split; [|split].
  - unfold run. rewrite sent_run_from by (done || lia). by apply filter_all.
  - unfold run.
    destruct (run_from_shape send_command (length (c :: l)) (c :: l) 0 s Hnb
                ltac:(lia) Ht) as (steps & -> & Hcmds & _).
    rewrite executed_blocks, <- Hcmds. clear.
    induction steps as [|[[[c o] b] p] steps IH]; [reflexivity|]. cbn. by rewrite IH.
  - by apply run_last_progress.
Qed.

(** X8.  A terminal command: when the window is connected and the input
    line is not blank, the stripped line is put in the history and handed
    alone to a dispatcher, which sends it once, emits its event, and ends
    on the progress value 100; the terminal shows what the slot makes of
    that one event. *)
Theorem terminal_command_once (terminal_input : string) (h : History.history)
    (s : session) :
  nonblank terminal_input = true →
  let command := PyStr.strip terminal_input in
  ∃ h' output success,
    Terminal.execute_terminal_command true terminal_input h
    = ([Terminal.Prompt command], h', Some [command])
    ∧ command ∈ History.cmd_history_list h'
    ∧ run send_command [command] s
      = [Send command; CommandExecuted command output success;
         Progress 100; Msleep 100]
    ∧ Terminal.show (run send_command [command] s)
      = Terminal.on_terminal_command_executed command output success.
Proof.
  intros Hnb command.
  assert (Hc : nonblank command = true) by (unfold command; by rewrite nonblank_strip).
  unfold Terminal.execute_terminal_command. cbn [negb]. cbv zeta.
  unfold nonblank in Hnb. rewrite Hnb. cbn [negb]. fold command.
  destruct (attempt_events send_command s command) as (o & b & He).
  exists (History.add_to_command_history command h), o, b.
  assert (Hrun : run send_command [command] s
                 = [Send command; CommandExecuted command o b;
                    Progress 100; Msleep 100]).
  { unfold run. cbn [length run_from]. rewrite Hc.
    destruct (attempt send_command s command) as [evs s'] eqn:Ha.
    cbn [fst] in He. subst evs.
    change (progress_value (Z.of_nat (0 + 1)) (Z.of_nat 1)) with (Some 100).
    reflexivity. }
  split; [reflexivity|]. split; [|split; [exact Hrun|]].
  - unfold History.add_to_command_history. case_bool_decide as Hin; [exact Hin|].
    cbn [History.cmd_history_list]. destruct (_ <? _)%nat; [|left].
    change (take 20 (command :: History.cmd_history_list h))
      with (command :: take 19 (History.cmd_history_list h)). left.
  - rewrite Hrun. unfold Terminal.show. cbn. apply app_nil_r.
Qed.

End BatchDispatch.

(** ** What the terminal shows *)
Section TerminalProps.
Import PyText Terminal.

Lemma blank_append (a b : string) : blank (a +:+ b) = blank a && blank b.
Proof.
  induction a as [|c a IH]; [reflexivity|].
  change (PyStr.is_space c && blank (a +:+ b)
          = PyStr.is_space c && blank a && blank b).
  by rewrite IH, andb_assoc.
Qed.

Lemma blank_join_nl (l : list string) :
  blank (join PyStr.nl l) = forallb blank l.
Proof.
  induction l as [|x l IH]; [reflexivity|].
  destruct l as [|y l]; [cbn; by rewrite andb_true_r|].
  rewrite join_cons, !blank_append, IH. reflexivity.
Qed.

(** X9.  For a command that came back, the terminal shows the notice
    [no output] exactly when every line of the text is a status line (one
    that starts, white space apart, with [100 code=], [101 code=] or
    [102 code=]) or is blank; otherwise it shows the other lines, glued and
    stripped. *)
Theorem terminal_no_output (command output : string) :
  (on_terminal_command_executed command output true = [NoOutput; Rule]
   ↔ Forall (λ line, is_status line = true ∨ blank line = true)
       (PyStr.split PyStr.LF output))
  ∧ (on_terminal_command_executed command output true = [NoOutput; Rule]
     ∨ on_terminal_command_executed command output true
       = [Output (formatted_output output); Rule]
       ∧ formatted_output output ≠ ""
       ∧ PyStr.strip (formatted_output output) = formatted_output output).
Proof.
  assert (Hb : PyStr.truthy (formatted_output output) = false
               ↔ Forall (λ line, is_status line = true ∨ blank line = true)
                   (PyStr.split PyStr.LF output)).
  { unfold formatted_output.
    transitivity (blank (join PyStr.nl (clean_output output)) = true).
    - rewrite blank_strip. unfold PyStr.truthy.
      destruct (PyStr.strip _); split; done.
    - rewrite blank_join_nl, forallb_forall, Forall_forall. unfold clean_output.
      split.
      + intros H line Hin. destruct (is_status line) eqn:Hs; [by left|right].
        apply H, filter_In. split; [by apply list_elem_of_In|]. by rewrite Hs.
      + intros H line Hin. apply filter_In in Hin as [Hin Hs].
        apply list_elem_of_In, H in Hin as [Hst|Hbl]; [|exact Hbl].
        by rewrite Hst in Hs. }
  unfold on_terminal_command_executed. split.
  - rewrite <- Hb. destruct (PyStr.truthy (formatted_output output)); split; done.
  - destruct (PyStr.truthy (formatted_output output)) eqn:Ht; [right|by left].
    split; [reflexivity|]. split.
    + intros E. by rewrite E in Ht.
    + apply strip_idem.
Qed.

End TerminalProps.

Lemma execute_commands_dispatch_witness :
  Dispatcher.sent
    (Dispatcher.run Dispatcher.appliance
       ["config network interface show"; "bogus_cmd"] tt)
  = ["config network interface show"; "bogus_cmd"].
Proof.
  apply (execute_commands_dispatch Dispatcher.appliance true true Batch.four_lines
           ["config network interface show"; "bogus_cmd"] tt).
  - vm_compute. reflexivity.
  - reflexivity.
Defined.

Lemma terminal_command_once_witness :
  ∃ h' output success,
    Terminal.execute_terminal_command true " system ident " History.initial
    = ([Terminal.Prompt (PyStr.strip " system ident ")], h',
       Some [PyStr.strip " system ident "])
    ∧ PyStr.strip " system ident " ∈ History.cmd_history_list h'
    ∧ Dispatcher.run Dispatcher.appliance [PyStr.strip " system ident "] tt
      = [Dispatcher.Send (PyStr.strip " system ident ");
         Dispatcher.CommandExecuted (PyStr.strip " system ident ") output success;
         Dispatcher.Progress 100; Dispatcher.Msleep 100]
    ∧ Terminal.show
        (Dispatcher.run Dispatcher.appliance [PyStr.strip " system ident "] tt)
      = Terminal.on_terminal_command_executed (PyStr.strip " system ident ")
          output success.
Proof.
  apply (terminal_command_once Dispatcher.appliance " system ident " History.initial tt).
  reflexivity.
Defined.

(** ** The connection thread *)
Section ConnectionProps.
Import Connection.

Lemma prefix_refl (s r : string) : String.prefix s (s +:+ r) = true.
Proof.
  induction s as [|c s IH]; [by destruct r|].
  change (String.prefix (String c s) (String c (s +:+ r)) = true).
  cbn [String.prefix]. by destruct (ascii_dec c c).
Qed.






(** One signal per run, whose flag tells whether a client is held. *)
Lemma run_result {client : Type} (SSLClient : bool → built client) (host : string) :
  ∃ success message,
    results (run SSLClient host).1 = [(success, message)]
    ∧ (success = true ↔ is_Some (run SSLClient host).2).
Proof.
  unfold run. destruct (SSLClient true) as [c|m|m].
  - exists true. eexists. split; [reflexivity|]. cbn. split; eauto.
  - destruct (SSLClient false) as [c|m2|m2].
    + exists true. eexists. split; [reflexivity|]. cbn. split; eauto.
    + exists false. eexists. split; [reflexivity|]. cbn. split; [done|by intros [? ?]].
    + exists false. eexists. split; [reflexivity|]. cbn. split; [done|by intros [? ?]].
  - exists false. eexists. split; [reflexivity|]. cbn. split; [done|by intros [? ?]].
Qed.

Lemma lower_prefix (p s : string) :
  String.prefix p s = true → String.prefix (PyText.lower p) (PyText.lower s) = true.
Proof.
  revert s. induction p as [|a p IH]; intros s H; [by destruct s|].
  destruct s as [|b s]; [done|]. cbn [String.prefix] in H.
  destruct (ascii_dec a b) as [->|]; [|done].
  cbn [PyText.lower String.prefix]. destruct (ascii_dec _ _); [|done]. by apply IH.
Qed.

Lemma prefix_trans (k p s : string) :
  String.prefix k p = true → String.prefix p s = true → String.prefix k s = true.
Proof.
  revert p s. induction k as [|a k IH]; intros p s Hk Hp; [by destruct s|].
  destruct p as [|b p]; [done|]. destruct s as [|c s]; [done|].
  cbn [String.prefix] in *.
  destruct (ascii_dec a b) as [->|]; [|done].
  destruct (ascii_dec b c) as [->|]; [|done]. by eapply IH.
Qed.

(** A keyword found in a prefix of [s] is found in [s]. *)
Lemma prefix_contains (k p s : string) :
  PyStr.contains k p = true → String.prefix p s = true → PyStr.contains k s = true.
Proof.
  revert s. induction p as [|a p IH]; intros s Hk Hp.
  - cbn in Hk. rewrite orb_false_r in Hk. destruct k; [|done].
    destruct s; cbn [PyStr.contains String.prefix]; done.
  - destruct s as [|b s]; [done|].
    assert (Hp' : String.prefix p s = true).
    { cbn [String.prefix] in Hp. by destruct (ascii_dec a b). }
    cbn [PyStr.contains] in Hk |- *. apply orb_true_iff in Hk as [Hk|Hk].
    + apply orb_true_iff. left. by eapply prefix_trans.
    + apply orb_true_iff. right. by apply IH.
Qed.

(** A text that starts with [heading] mentions every keyword that the
    lower-case heading contains. *)
Lemma heading_mentions (keyword heading error_msg : string) :
  PyStr.contains keyword (PyText.lower heading) = true →
  String.prefix heading error_msg = true → mentions keyword error_msg = true.
Proof.
  intros Hk Hp. unfold mentions. eapply prefix_contains; [exact Hk|].
  by apply lower_prefix.
Qed.

(** X11.  The heading of the description tells which branch was taken, and
    the branches are tried in a fixed order: the description starts with
    [SSL/Certificate Error: ] exactly when the text of the exception
    mentions, in any case of letters, [certificate] or [ssl]; with
    [Connection Error: ] exactly when it does not and mentions
    [connection]; with [Authentication Error: ] exactly when it mentions
    none of these three and mentions [authentication] or [login]. *)
Theorem describe_heading (error_msg : string) :
  let tls := mentions "certificate" error_msg || mentions "ssl" error_msg in
  let network := mentions "connection" error_msg in
  let auth := mentions "authentication" error_msg || mentions "login" error_msg in
  PyStr.startswith "SSL/Certificate Error: " (describe error_msg) = tls
  ∧ PyStr.startswith "Connection Error: " (describe error_msg)
    = negb tls && network
  ∧ PyStr.startswith "Authentication Error: " (describe error_msg)
    = negb tls && negb network && auth.
Proof.
  intros tls network auth. subst tls network auth.
  unfold describe, PyStr.startswith.
  destruct (mentions "certificate" error_msg || mentions "ssl" error_msg) eqn:Htls;
    [repeat split; first [rewrite !append_assoc; apply prefix_refl | vm_compute; reflexivity]|].
  destruct (mentions "connection" error_msg) eqn:Hnet;
    [repeat split; first [rewrite !append_assoc; apply prefix_refl | vm_compute; reflexivity]|].
  destruct (mentions "authentication" error_msg || mentions "login" error_msg) eqn:Hauth;
    [repeat split; first [rewrite !append_assoc; apply prefix_refl | vm_compute; reflexivity]|].
  cbn [negb andb]. repeat split.
  - destruct (String.prefix _ error_msg) eqn:Hp; [|reflexivity].
    apply (heading_mentions "ssl") in Hp; [|reflexivity].
    apply orb_false_iff in Htls as [_ Htls]. congruence.
  - destruct (String.prefix _ error_msg) eqn:Hp; [|reflexivity].
    apply (heading_mentions "connection") in Hp; [|reflexivity]. congruence.
  - destruct (String.prefix _ error_msg) eqn:Hp; [|reflexivity].
    apply (heading_mentions "authentication") in Hp; [|reflexivity].
    apply orb_false_iff in Hauth as [Hauth _]. congruence.
Qed.

End ConnectionProps.

(** ** The session of the window *)
Section LifecycleProps.
Import Lifecycle.
Context {C : Type}.

Ltac coherent_tac :=
  unfold coherent; cbn;
  repeat split; intros;
  try done;
  try match goal with
      | H : is_Some None |- _ => by destruct H
      | H : _ ∧ _ |- _ => by destruct H
      end;
  try tauto; try congruence.

Lemma initial_coherent : coherent (initial (C := C)).
Proof. coherent_tac. Qed.

Lemma step_coherent (w : window C) (e : event) : coherent w → coherent (step w e).
Proof.
  intros Hw. pose proof Hw as (Hc & Ht & Hd & Hb & Hs & Hcb).
  destruct e as [tab|SSLClient|]; cbn [step].
  - destruct (connect_btn w) eqn:Hbtn; [|exact Hw].
    destruct (proj1 Hcb eq_refl) as [Hnc Hnt].
    unfold connect_to_appliance. destruct (negb _); [exact Hw|].
    coherent_tac.
  - destruct (connection_thread w) as [host|] eqn:Hth; [|exact Hw].
    assert (Hnc : is_connected w = false) by (apply Ht; by eexists).
    assert (Hcl : client w = None).
    { destruct (client w) eqn:E; [|done].
      assert (is_connected w = true) by (apply Hc; by eexists). congruence. }
    destruct (run_result SSLClient host) as (success & message & Hres & Hsucc).
    destruct (Connection.run SSLClient host) as [tr thread_client]. cbn [fst snd] in *.
    unfold deliver. rewrite Hres. cbn [fold_left fst]. unfold on_connection_result.
    destruct success.
    + coherent_tac.
    + rewrite Hb, Hs, Hnc, Hcl. coherent_tac.
  - destruct (disconnect_btn w) eqn:Hbtn; [|exact Hw].
    assert (Hnt : connection_thread w = None).
    { destruct (connection_thread w) eqn:E; [|done].
      assert (is_connected w = false) by (apply Ht; by eexists). congruence. }
    coherent_tac.
Qed.

Lemma after_coherent (events : list event) : coherent (after (C := C) events).
Proof.
  unfold after.
  induction events as [|e events IH] using rev_ind; [apply initial_coherent|].
  rewrite fold_left_app. cbn [fold_left]. by apply step_coherent.
Qed.

(** X12.  Whatever clicks on the connect and disconnect buttons and
    whatever ends of connection threads the window has seen since it was
    built, it is in one of three states.  The flag [is_connected] is set
    exactly when a client is held; the buttons to disconnect, to back up
    and to ask for the system information are enabled exactly then; no
    connection thread is running then; and the connect button is enabled
    exactly when the window is neither connected nor connecting. *)
Theorem session_states (events : list event) :
  let w := after (C := C) events in
  (is_connected w = true ↔ is_Some (client w))
  ∧ (is_Some (connection_thread w) → is_connected w = false)
  ∧ disconnect_btn w = is_connected w
  ∧ backup_btn w = is_connected w
  ∧ system_info_btn w = is_connected w
  ∧ (connect_btn w = true ↔ is_connected w = false ∧ connection_thread w = None).
Proof.
  cbv zeta. apply after_coherent.
Qed.

(** X13.  [backup_appliance] reads a variable that is assigned only when a
    client is held: without client a click ends in an [UnboundLocalError].
    The backup button being enabled only while the window holds a client,
    a click on it never meets that error: it sends the backup command, once,
    to the client of the window. *)
Theorem backup_button_safe
    (send_command : C → string → C * Dispatcher.outcome) (events : list event) :
  (Backup.backup_appliance send_command None).2 = Backup.UnboundLocalError
  ∧ (backup_btn (after events) = true →
     (Backup.backup_appliance send_command (client (after events))).1
     = [Backup.backup_command]
     ∧ (Backup.backup_appliance send_command (client (after events))).2
       ≠ Backup.UnboundLocalError).
Proof.
  split; [reflexivity|]. intros Hbtn.
  destruct (after_coherent events) as (Hc & _ & _ & Hb & _).
  rewrite Hb in Hbtn. apply Hc in Hbtn as [s Hs]. rewrite Hs.
  unfold Backup.backup_appliance.
  destruct (send_command s Backup.backup_command) as [s' [r|msg]]; cbn [fst snd].
  - split; [reflexivity|]. by destruct (PyStr.contains _ _).
  - split; [reflexivity|done].
Qed.

End LifecycleProps.

(** ** Reading profiles back *)
Section ProfilesProps.
Import Settings Profiles.
Variable to_int : qvalue → option Z.

Lemma prefix_append (s a b : string) :
  String.prefix (s +:+ a) (s +:+ b) = String.prefix a b.
Proof.
  induction s as [|c s IH]; [reflexivity|].
  change (String.prefix (String c (s +:+ a)) (String c (s +:+ b)) = String.prefix a b).
  cbn [String.prefix]. by destruct (ascii_dec c c).
Qed.

Lemma prefix_append_r (p s r : string) :
  String.prefix p s = true → String.prefix p (s +:+ r) = true.
Proof.
  revert s. induction p as [|a p IH]; intros s H; [by destruct (s +:+ r)|].
  destruct s as [|b s]; [done|].
  change (String.prefix (String a p) (String b (s +:+ r)) = true).
  cbn [String.prefix] in *. destruct (ascii_dec a b); [by apply IH|done].
Qed.

(** The settings of a section that lies under [section] lie under it. *)
Lemma under_field (section sub field : string) :
  under section sub = true → under section (sub +:+ String "/" field) = true.
Proof.
  unfold under. intros H. apply orb_true_iff in H as [H|H]; apply orb_true_iff; right.
  - apply String.eqb_eq in H as ->. rewrite prefix_append. by destruct field.
  - by apply prefix_append_r.
Qed.

(** X14.  Reading back what was saved: after a successful
    [save_connection_info] under a name, with a port that the port field
    can hold, [load_connection_profile] of that name returns [True] and sets
    the host and the user to the stripped texts that were saved and the
    port to the saved port; the password field keeps what it held. *)
Theorem save_then_load (tab : connection_tab) (now : string)
    (profile_name : option string) (st : store) (tab' : connection_tab) :
  (save_connection_info tab now profile_name st).1 = true →
  1 ≤ port_spin tab ≤ 65535 →
  load_connection_profile to_int (name_or_default profile_name)
    (save_connection_info tab now profile_name st).2 tab'
  = (true,
     {| host_edit := PyStr.strip (host_edit tab); port_spin := port_spin tab;
        user_edit := PyStr.strip (user_edit tab);
        password_edit := password_edit tab' |}).
Proof.
  intros Hok Hport.
  destruct (save_connection_info_writes tab now profile_name st Hok)
    as (Hh & Hp & Hu & _ & _).
  unfold load_connection_profile, value, value_int. rewrite Hh, Hp, Hu.
  unfold save_connection_info in Hok.
  destruct (PyStr.truthy (PyStr.strip (host_edit tab))
            && PyStr.truthy (PyStr.strip (user_edit tab))) eqn:Ht; [|discriminate].
  apply andb_true_iff in Ht as [Ht1 Ht2]. cbn [truth]. rewrite Ht1, Ht2. cbn [andb].
  cbn [host_edit port_spin user_edit password_edit]. unfold spin.
  do 3 f_equal. lia.
Qed.

Lemma list_remove_other (x y : string) (l : list string) :
  y ≠ x → y ∈ l → y ∈ list_remove x l.
Proof.
  intros Hne. induction l as [|z l IH]; [done|]. intros Hin. cbn [list_remove].
  destruct (String.eqb_spec z x) as [->|Hzx].
  - apply elem_of_cons in Hin as [->|Hin]; done.
  - apply elem_of_cons in Hin as [->|Hin]; [left|right; by apply IH].
Qed.

Lemma slash_inside (a b : string) : PyStr.contains "/" (a +:+ String "/" b) = true.
Proof.
  induction a as [|c a IH].
  { change (PyStr.contains "/" (String "/" b) = true).
    cbn [PyStr.contains String.prefix]. by destruct b. }
  change (PyStr.contains "/" (String c (a +:+ String "/" b)) = true).
  cbn [PyStr.contains]. rewrite IH. apply orb_true_r.
Qed.

(** The key of the name list lies under the section of no profile but the
    one named [list]. *)
Lemma list_key_not_under (name : string) :
  name ≠ "list" → under ("profiles/" +:+ name) "profiles/list" = false.
Proof.
  intros Hne. unfold under. apply orb_false_iff. split.
  - apply String.eqb_neq. intros H.
    change "profiles/list" with ("profiles/" +:+ "list") in H.
    apply append_inj_r in H. congruence.
  - rewrite append_assoc. change "profiles/list" with ("profiles/" +:+ "list").
    rewrite prefix_append.
    destruct (String.prefix (name +:+ "/") "list") eqn:Hp; [|reflexivity].
    apply (prefix_contains "/") in Hp; [discriminate|apply slash_inside].
Qed.

(** X15.  After [delete_connection_profile(name)], loading that profile,
    or any profile whose section lies under the deleted one (a name that
    goes on after a slash), returns [False] and leaves the connection tab as
    it was, whatever the store held; yet such another profile stays in the
    name list. *)
Theorem delete_then_load (name other : string) (st : store) (tab : connection_tab) :
  under ("profiles/" +:+ name) ("profiles/" +:+ other) = true →
  load_connection_profile to_int other (delete_connection_profile name st).2 tab
  = (false, tab)
  ∧ (other ≠ name → name ≠ "list" → other ∈ get_saved_profiles st →
     other ∈ get_saved_profiles (delete_connection_profile name st).2).
Proof.
  intros Hu. unfold delete_connection_profile. cbn [snd]. split.
  - unfold load_connection_profile, value, value_int.
    rewrite !lookup_remove_under by by apply under_field.
    reflexivity.
  - intros Hne Hlist Hin. unfold get_saved_profiles at 1.
    rewrite lookup_remove_other by by apply list_key_not_under.
    case_bool_decide as Hd; [|exact Hin].
    unfold setValue. rewrite lookup_insert_eq. by apply list_remove_other.
Qed.

(** A key is cut in one way only into a section and a field without
    slash. *)
Lemma field_key_inj (a b f g : string) :
  PyStr.contains "/" f = false → PyStr.contains "/" g = false →
  a +:+ String "/" f = b +:+ String "/" g → a = b ∧ f = g.
Proof.
  intros Hf Hg. revert b. induction a as [|c a IH]; intros b H.
  - destruct b as [|d b]; [by injection H|].
    injection H as _ H. rewrite H, slash_inside in Hf. discriminate.
  - destruct b as [|d b].
    + injection H as _ H. rewrite <- H, slash_inside in Hg. discriminate.
    + injection H as -> H. apply IH in H as [-> ->]. done.
Qed.

(** X16.  Saving under one name does not change what loading another name
    gives. *)
Theorem save_keeps_others (tab : connection_tab) (now : string)
    (profile_name : option string) (other : string) (st : store)
    (tab' : connection_tab) :
  other ≠ name_or_default profile_name →
  load_connection_profile to_int other
    (save_connection_info tab now profile_name st).2 tab'
  = load_connection_profile to_int other st tab'.
Proof.
  intros Hne. unfold save_connection_info. destruct (negb _); [reflexivity|].
  cbv zeta. set (name := name_or_default profile_name) in *.
  assert (Hkey : ∀ f g, PyStr.contains "/" f = false → PyStr.contains "/" g = false →
            ("profiles/" +:+ name) +:+ String "/" f
            ≠ ("profiles/" +:+ other) +:+ String "/" g).
  { intros f g Hf Hg H. apply field_key_inj in H as [H _]; [|done..].
    apply append_inj_r in H. congruence. }
  assert (Hlist : ∀ g, "profiles/list" ≠ ("profiles/" +:+ other) +:+ String "/" g).
  { intros g. apply not_eq_sym, field_key_not_list. }
  assert (Hsame : ∀ g st0, PyStr.contains "/" g = false →
            (if bool_decide (name ∈ get_saved_profiles st0) then (true, st0)
             else (true, setValue "profiles/list"
                           (QList (get_saved_profiles st0 ++ [name])) st0)).2
              !! (("profiles/" +:+ other) +:+ String "/" g)
            = st0 !! (("profiles/" +:+ other) +:+ String "/" g)).
  { intros g st0 Hg. case_bool_decide; [reflexivity|]. cbn [snd]. unfold setValue.
    by rewrite lookup_insert_ne by apply Hlist. }
  unfold load_connection_profile, value, value_int.
  rewrite !Hsame by reflexivity. unfold setValue.
  rewrite !lookup_insert_ne by (apply Hkey; reflexivity). reflexivity.
Qed.

(** X17.  From the empty store on, whatever the writers are called with,
    no name is twice in the name list. *)
Theorem profile_names_unique (ops : list op) :
  NoDup (get_saved_profiles (exec ops ∅)).
Proof. apply exec_names_distinct. unfold get_saved_profiles. constructor. Qed.

End ProfilesProps.

Lemma save_then_load_witness :
  Profiles.load_connection_profile Profiles.no_conversion "lab" Settings.lab_store
    {| Settings.host_edit := ""; Settings.port_spin := 443;
       Settings.user_edit := ""; Settings.password_edit := "typed" |}
  = (true,
     {| Settings.host_edit := "10.0.0.1"; Settings.port_spin := 443;
        Settings.user_edit := "admin"; Settings.password_edit := "typed" |}).
Proof.
  apply (save_then_load Profiles.no_conversion Settings.lab_tab "2024-05-02 09:30:00"
           (Some "lab") ∅).
  - reflexivity.
  - vm_compute. split; discriminate.
Defined.

Lemma delete_then_load_witness :
  Profiles.load_connection_profile Profiles.no_conversion "lab/old"
    (Settings.delete_connection_profile "lab" Profiles.nested_store).2 Settings.lab_tab
  = (false, Settings.lab_tab)
  ∧ "lab/old"
    ∈ Settings.get_saved_profiles
        (Settings.delete_connection_profile "lab" Profiles.nested_store).2.
Proof.
  destruct (delete_then_load Profiles.no_conversion "lab" "lab/old"
              Profiles.nested_store Settings.lab_tab) as [Hload Hlist].
  - reflexivity.
  - split; [exact Hload|]. apply Hlist.
    + discriminate.
    + discriminate.
    + apply list_elem_of_In. vm_compute. auto.
Defined.

Lemma save_keeps_others_witness :
  Profiles.load_connection_profile Profiles.no_conversion "lab"
    (Settings.save_connection_info Settings.lab_tab "2024-05-03 10:00:00"
       (Some "office") Settings.lab_store).2 Settings.lab_tab
  = Profiles.load_connection_profile Profiles.no_conversion "lab" Settings.lab_store
      Settings.lab_tab.
Proof.
  apply (save_keeps_others Profiles.no_conversion).
  discriminate.
Defined.

(** ** The dropdown of the history *)
Section HistoryView.
Import History.

(** X18.  Whatever calls of [add_to_command_history] and
    [clear_command_history] the window has made since it was built, the
    dropdown shows the history list, entry for entry, or the single item
    [No command history] when the list is empty; it is never empty. *)
Theorem dropdown_mirrors_history (ops : list op) :
  let h := foldl step initial ops in
  command_history h
  = match cmd_history_list h with
    | [] => ["No command history"]
    | l => l
    end
  ∧ command_history h ≠ [].
Proof.
  cbv zeta.
  assert (H : command_history (foldl step initial ops)
              = match cmd_history_list (foldl step initial ops) with
                | [] => ["No command history"]
                | l => l
                end).
  { induction ops as [|o ops IH] using rev_ind; [reflexivity|].
    rewrite foldl_app. cbn [foldl]. destruct o as [command|]; cbn [step].
    - unfold add_to_command_history. case_bool_decide; [exact IH|].
      cbn [cmd_history_list command_history]. by destruct (_ <? _)%nat.
    - reflexivity. }
  split; [exact H|]. rewrite H. by destruct (cmd_history_list _).
Qed.



End HistoryView.

(** ** Rounds of the monitor *)
Section MonitorRounds.
Import Monitor.
Context {session : Type}.
Variable send_command : session → string → session * Dispatcher.outcome.

Lemma poll_one_shape (command : string) (s : session) :
  ∃ text s', poll_one send_command command s = ([Send command; Data text], s').
Proof.
  unfold poll_one, fetch.
  destruct (send_command s command) as [s' [r|msg]]; eauto.
Qed.

(** The [try] statement sends one or two commands and publishes once, at
    the end. *)
Lemma poll_shape (monitor_type : string) (s : session) :
  ∃ commands text s',
    poll send_command monitor_type s = (map Send commands ++ [Data text], s')
    ∧ (1 ≤ length commands ≤ 2)%nat.
Proof.
  unfold poll.
  destruct (String.eqb monitor_type "system").
  { destruct (poll_one_shape "monitor system" s) as (t & s' & ->).
    exists ["monitor system"], t, s'. split; [reflexivity|cbn; lia]. }
  destruct (String.eqb monitor_type "ipsec").
  { unfold fetch. destruct (send_command s "monitor getikesa") as [s1 [r1|m1]].
    - destruct (send_command s1 "monitor getsa") as [s2 [r2|m2]].
      + eexists ["monitor getikesa"; "monitor getsa"], _, s2.
        split; [reflexivity|cbn; lia].
      + eexists ["monitor getikesa"; "monitor getsa"], _, s2.
        split; [reflexivity|cbn; lia].
    - eexists ["monitor getikesa"], _, s1. split; [reflexivity|cbn; lia]. }
  destruct (String.eqb monitor_type "interface").
  { destruct (poll_one_shape "monitor interface" s) as (t & s' & ->).
    exists ["monitor interface"], t, s'. split; [reflexivity|cbn; lia]. }
  destruct (poll_one_shape ("monitor " +:+ monitor_type) s) as (t & s' & ->).
  exists ["monitor " +:+ monitor_type], t, s'. split; [reflexivity|cbn; lia].
Qed.

Lemma sent_sends (commands : list string) (tl : list event) :
  sent (map Send commands ++ tl) = commands ++ sent tl.
Proof. induction commands as [|c l IH]; [reflexivity|]. cbn. by rewrite <- IH. Qed.

Lemma published_sends (commands : list string) (tl : list event) :
  published (map Send commands ++ tl) = published tl.
Proof. induction commands as [|c l IH]; [reflexivity|]. exact IH. Qed.

Lemma published_app (t1 t2 : list event) :
  published (t1 ++ t2) = published t1 ++ published t2.
Proof. apply omap_app. Qed.

(** X20.  The monitor loop, for every kind and whatever the session
    answers or raises: each round of a poller that holds a client sends one
    or two commands, then publishes exactly one snapshot, then sleeps two
    seconds; a poller without client sends and publishes nothing. *)
Theorem monitor_rounds (upper : string → string) (monitor_type : string)
    (is_running : list bool) :
  (∀ s, Forall (λ evs, ∃ commands text,
                  evs = map Send commands ++ [Data text; Msleep 2000]
                  ∧ (1 ≤ length commands ≤ 2)%nat)
          (rounds send_command monitor_type is_running (Some s)))
  ∧ (∀ s, length (published (run send_command upper monitor_type is_running (Some s)))
          = length (rounds send_command monitor_type is_running (Some s)))
  ∧ sent (run send_command upper monitor_type is_running None) = []
  ∧ published (run send_command upper monitor_type is_running None) = [].
Proof.
  assert (Hround : ∀ s, ∃ commands text s',
            round send_command monitor_type (Some s)
            = (map Send commands ++ [Data text; Msleep 2000], Some s')
            ∧ (1 ≤ length commands ≤ 2)%nat).
  { intros s. destruct (poll_shape monitor_type s) as (cs & t & s' & Hp & Hl).
    exists cs, t, s'. split; [|exact Hl]. unfold round. rewrite Hp.
    by rewrite <- app_assoc. }
  split; [|split; [|split]].
  - induction is_running as [|[|] later IH]; intros s; cbn [rounds]; [constructor| |constructor].
    destruct (Hround s) as (cs & t & s' & -> & Hl).
    constructor; [by exists cs, t|apply IH].
  - intros s. unfold run. change (published (Started ?m :: ?l)) with (published l).
    revert s. induction is_running as [|[|] later IH]; intros s; cbn [rounds];
      [reflexivity| |reflexivity].
    destruct (Hround s) as (cs & t & s' & -> & Hl).
    cbn [concat length]. rewrite published_app, published_sends, length_app.
    cbn. f_equal. apply IH.
  - unfold run. change (sent (Started ?m :: ?l)) with (sent l).
    induction is_running as [|[|] later IH]; cbn [rounds round];
      [reflexivity| |reflexivity].
    cbn [concat]. exact IH.
  - unfold run. change (published (Started ?m :: ?l)) with (published l).
    induction is_running as [|[|] later IH]; cbn [rounds round];
      [reflexivity| |reflexivity].
    cbn [concat]. exact IH.
Qed.

End MonitorRounds.

(** ** The requirements of [setup.py] *)
Section SetupProps.
Import Setup.

Lemma strip_head (c : ascii) (s : string) :
  PyStr.is_space c = false → ∃ t, PyStr.strip (String c s) = String c t.
Proof.
  intros Hc. unfold PyStr.strip. rewrite lstrip_fixed by done.
  rewrite rstrip_cons. destruct (PyStr.rstrip s); [|eauto]. rewrite Hc. eauto.
Qed.

(** X21.  Every requirement read by [setup.py] is a stripped, non-empty
    text that comes from a line which does not start with [#]; the test for
    comments being made on the line as it stands, a requirement that starts
    with [#] comes from a line that starts with white space. *)
Theorem requirements_kept (fh : list string) (requirement : string) :
  requirement ∈ requirements fh →
  requirement ≠ ""
  ∧ PyStr.strip requirement = requirement
  ∧ ∃ line, line ∈ fh ∧ requirement = PyStr.strip line
      ∧ PyStr.startswith "#" line = false
      ∧ (PyStr.startswith "#" requirement = true →
         ∃ c rest, line = String c rest ∧ PyStr.is_space c = true).
Proof.
  unfold requirements. intros Hin.
  apply list_elem_of_fmap in Hin as (line & -> & Hin).
  apply list_elem_of_In, filter_In in Hin as [Hin Hkeep].
  unfold keep in Hkeep. apply andb_true_iff in Hkeep as [Ht Hc].
  apply negb_true_iff in Hc.
  split; [by destruct (PyStr.strip line)|]. split; [apply strip_idem|].
  exists line. split; [by apply list_elem_of_In|]. split; [reflexivity|].
  split; [exact Hc|]. intros Hs.
  destruct line as [|c rest]; [done|]. exists c, rest. split; [reflexivity|].
  destruct (PyStr.is_space c) eqn:Hsp; [reflexivity|exfalso].
  destruct (strip_head c rest Hsp) as [t Ht']. rewrite Ht' in Hs.
  unfold PyStr.startswith in *. cbn [String.prefix] in Hs, Hc.
  destruct (ascii_dec "#" c); [|done].
  destruct t; destruct rest; done.
Qed.

Lemma requirements_kept_witness :
  "# pinned" ≠ ""
  ∧ PyStr.strip "# pinned" = "# pinned"
  ∧ ∃ line, line ∈ ["PyQt6>=6.4.0"; "  # pinned"; "# tools"]
      ∧ "# pinned" = PyStr.strip line
      ∧ PyStr.startswith "#" line = false
      ∧ (PyStr.startswith "#" "# pinned" = true →
         ∃ c rest, line = String c rest ∧ PyStr.is_space c = true).
Proof.
  apply (requirements_kept ["PyQt6>=6.4.0"; "  # pinned"; "# tools"] "# pinned").
  apply list_elem_of_In. vm_compute. auto.
Defined.

End SetupProps.

(** ** The terminal never shows a status line *)
Section TerminalLines.
Import PyText Terminal.





















End TerminalLines.
